(** * Agent MRI front end: the result views and the markdown they exchange

    A shallow embedding of the presentation code of the repository
    (types.ts, ResultsContainer.tsx, tabs/TimelineTab.tsx and
    MarkdownViewer.tsx) together with the properties of the views that the
    specification states.

    Conventions of the embedding.
    - A JavaScript string is the list of its UTF-16 code units, each a
      natural number ([N]).  String literals of the source that are plain
      ASCII are written [lit "..."]; the two literals with other characters
      spell their code units out.
    - A [number] that the specification declares to be an integer
      ([step_id], [score]) is a [Z].
    - An optional property ([label?], [short?], [text?], [tags?]) is an
      [option]; [None] is [undefined].
    - A JSX element is a value of a small inductive type that keeps what the
      element shows and the class that decides its layout. *)

From Stdlib Require Import ZArith NArith List Bool String Ascii Lia Decimal.
From stdpp Require Import gmap strings list.

Set Default Proof Using "Type".
Local Open Scope Z_scope.

(** ** JavaScript strings *)

Module Js.

Abbreviation jsstring := (list N).

(** An ASCII literal of the source as code units. *)
Definition lit (s : string) : jsstring :=
  List.map N_of_ascii (list_ascii_of_string s).

(** ECMAScript WhiteSpace and LineTerminator code points: what
    [String.prototype.trim] strips. *)
Definition isLineTerminator (c : N) : bool :=
  (N.eqb c 10 || N.eqb c 13 || N.eqb c 8232 || N.eqb c 8233)%N.

Definition isWhiteSpace (c : N) : bool :=
  (N.eqb c 9 || N.eqb c 11 || N.eqb c 12 || N.eqb c 32 || N.eqb c 160
   || N.eqb c 5760 || (N.leb 8192 c && N.leb c 8202)
   || N.eqb c 8239 || N.eqb c 8287 || N.eqb c 12288 || N.eqb c 65279
   || isLineTerminator c)%N.

Fixpoint trimStart (s : jsstring) : jsstring :=
  match s with
  | [] => []
  | c :: s' => if isWhiteSpace c then trimStart s' else s
  end.

Definition trimEnd (s : jsstring) : jsstring := rev (trimStart (rev s)).

(** [s.trim()] *)
Definition trim (s : jsstring) : jsstring := trimEnd (trimStart s).

(** [s.startsWith(pre)] *)
Fixpoint startsWith (pre s : jsstring) : bool :=
  match pre, s with
  | [], _ => true
  | _ :: _, [] => false
  | p :: pre', c :: s' => N.eqb p c && startsWith pre' s'
  end.

(** [s.includes(pat)] *)
Fixpoint includes (pat s : jsstring) : bool :=
  startsWith pat s ||
  match s with
  | [] => false
  | _ :: s' => includes pat s'
  end.

(** [s.split(sep)] for a separator of one code unit; the empty string
    splits into one empty piece. *)
Fixpoint split (sep : N) (s : jsstring) : list jsstring :=
  match s with
  | [] => [[]]
  | c :: s' =>
      if N.eqb c sep then [] :: split sep s'
      else match split sep s' with
           | cur :: rest => (c :: cur) :: rest
           | [] => [[c]]
           end
  end.

(** [pieces.join(sep)]; the empty array joins to the empty string. *)
Fixpoint join (sep : jsstring) (pieces : list jsstring) : jsstring :=
  match pieces with
  | [] => []
  | p :: rest =>
      match rest with
      | [] => p
      | _ :: _ => p ++ sep ++ join sep rest
      end
  end.

(** [s.replace(pat, rep)] with a string pattern: the first occurrence only. *)
Fixpoint replaceFirst (pat rep s : jsstring) : jsstring :=
  if startsWith pat s then
    match pat with
    | [] => rep ++ s
    | _ :: _ => rep ++ drop (length pat) s
    end
  else
    match s with
    | [] => []
    | c :: s' => c :: replaceFirst pat rep s'
    end.

(** Truthiness of a string and [a || b] on strings. *)
Definition truthy (s : jsstring) : bool :=
  match s with [] => false | _ :: _ => true end.

Definition orElse (a b : jsstring) : jsstring := if truthy a then a else b.

(** [o || empty] for an optional string property. *)
Definition orEmpty (o : option jsstring) : jsstring :=
  match o with Some s => s | None => [] end.

(** A [number] that holds an integer is the [Z] of its value.  The double
    nearest to an integer [x], ties to the even significand: every integer
    of magnitude up to 2^53 is a double; a larger one is rounded to a
    multiple of the unit in its last place.  (The magnitudes met here stay
    below the largest double.) *)
Definition roundToDouble (x : Z) : Z :=
  let a := Z.abs x in
  if a <=? 2 ^ 53 then x
  else
    let ulp := 2 ^ (Z.log2 a - 52) in
    let q := a / ulp in
    let r := a mod ulp in
    let up := if 2 * r <? ulp then false
              else if ulp <? 2 * r then true
              else Z.odd q in
    Z.sgn x * ((if up then q + 1 else q) * ulp).

(** [a - b] on numbers that hold integers: the exact difference, rounded to
    a double. *)
Definition jsSub (a b : Z) : Z := roundToDouble (a - b).

(** Decimal digits of a number, as the template literal prints an integer.
    JavaScript prints the safe integers (magnitude below 2^53) digit for
    digit; the embedding prints every integer so. *)
Fixpoint digits (u : Decimal.uint) : jsstring :=
  match u with
  | Nil => []
  | D0 u => 48%N :: digits u
  | D1 u => 49%N :: digits u
  | D2 u => 50%N :: digits u
  | D3 u => 51%N :: digits u
  | D4 u => 52%N :: digits u
  | D5 u => 53%N :: digits u
  | D6 u => 54%N :: digits u
  | D7 u => 55%N :: digits u
  | D8 u => 56%N :: digits u
  | D9 u => 57%N :: digits u
  end.

Definition numberToString (z : Z) : jsstring :=
  match z with
  | Z0 => [48%N]
  | Zpos p => digits (Pos.to_uint p)
  | Zneg p => 45%N :: digits (Pos.to_uint p)
  end.

(** A string is blank when every code unit of it is white space. *)
Definition blank (s : jsstring) : bool := forallb isWhiteSpace s.

(** A string is one line when it holds no line feed. *)
Definition oneLine (s : jsstring) : bool := forallb (fun c => negb (N.eqb c 10)) s.

End Js.

Import Js.

Arguments lit : simpl never.

(** ** types.ts *)

Module Types.

Inductive TimelineStepType :=
  | thought | tool_call | tool_result | memory_update | final_answer.

(** The string each member of the union is. *)
Definition typeName (t : TimelineStepType) : jsstring :=
  match t with
  | thought => lit "thought"
  | tool_call => lit "tool_call"
  | tool_result => lit "tool_result"
  | memory_update => lit "memory_update"
  | final_answer => lit "final_answer"
  end.

Record TimelineStep := {
  step_id : Z;
  type : TimelineStepType;
  label : option jsstring;
  short : option jsstring;
  text : option jsstring;
  tags : option (list jsstring)
}.

(** [by_failure_type] keeps the order of its keys, as [Object.entries]
    returns them. *)
Record MRISummary := {
  total_steps : Z;
  flagged_steps : Z;
  by_failure_type : list (jsstring * Z)
}.

Inductive RiskLevel := Low | Medium | High.

Record MRIRisk := {
  score : Z;
  level : RiskLevel
}.

(** The declared shape of the response of the backend. *)
Record InternRunResponse := {
  final_answer_md : jsstring;
  summary : MRISummary;
  risk : MRIRisk;
  steps : list TimelineStep;
  report_markdown : jsstring;
  critic_markdown : jsstring
}.

(** The response as the object that [resp.json()] yields: its properties by
    name.  A component reads a property with [data !! name]; a name the
    object does not have reads as [None] ([undefined]). *)
Inductive Field :=
  | FString (s : jsstring)
  | FSummary (m : MRISummary)
  | FRisk (r : MRIRisk)
  | FSteps (l : list TimelineStep).

Abbreviation JsObject := (gmap string Field).

(** An object with exactly the properties of the declared shape. *)
Definition toObject (r : InternRunResponse) : JsObject :=
  <["final_answer_md" := FString (final_answer_md r)]>
  (<["summary" := FSummary (summary r)]>
  (<["risk" := FRisk (risk r)]>
  (<["steps" := FSteps (steps r)]>
  (<["report_markdown" := FString (report_markdown r)]>
  (<["critic_markdown" := FString (critic_markdown r)]> ∅))))).

End Types.

Import Types.

(** ** components/tabs/TimelineTab.tsx *)

Module TimelineTab.

Inductive Severity := high | medium | low.

Definition tagSeverity : gmap (list N) Severity :=
  <[lit "hallucination_risk" := high]>
  (<[lit "tool_misuse" := high]>
  (<[lit "tool_error" := high]>
  (<[lit "overconfident_no_citation" := high]>
  (<[lit "speculative_metrics" := medium]>
  (<[lit "weak_grounding" := medium]>
  (<[lit "memory_drift" := medium]>
  (<[lit "apology" := low]> ∅))))))).

Definition highClasses : jsstring := lit "bg-rose-50 text-rose-700 border border-rose-100".
Definition mediumClasses : jsstring := lit "bg-amber-50 text-amber-700 border border-amber-100".
Definition lowClasses : jsstring := lit "bg-slate-50 text-slate-700 border border-slate-200".

(** [tagSeverity[tag] ?? "low"].  A name that the object inherits from its
    prototype reads as a value that is neither ["high"] nor ["medium"], which
    [getTagClasses] styles as it styles ["low"]; the embedding reads it as
    absent. *)
Definition severityOf (tag : jsstring) : Severity :=
  match tagSeverity !! tag with
  | Some sev => sev
  | None => low
  end.

Definition getTagClasses (tag : jsstring) : jsstring :=
  let sev := severityOf tag in
  match sev with
  | high => highClasses
  | medium => mediumClasses
  | low => lowClasses
  end.

Inductive Icon := Terminal | MessageSquare | BrainCircuit.

Definition getIcon (t : TimelineStepType) : Icon :=
  match t with
  | tool_call => Terminal
  | final_answer => MessageSquare
  | _ => BrainCircuit
  end.

Definition getBubbleBg (t : TimelineStepType) : jsstring :=
  match t with
  | tool_call => lit "bg-indigo-50"
  | final_answer => lit "bg-emerald-50"
  | _ => lit "bg-slate-50"
  end.

Definition shortPlaceholder : jsstring := lit "short summary".
Definition bodyPlaceholder : jsstring :=
  lit "No detailed trace captured for this step.".

(** [o && o.trim().length > 0 ? o : placeholder] *)
Definition orPlaceholder (o : option jsstring) (placeholder : jsstring) : jsstring :=
  match o with
  | Some s =>
      if truthy s && (0 <? Z.of_nat (length (trim s))) then s else placeholder
  | None => placeholder
  end.

(** [tag.replace(/_/g, " ")] *)
Definition underscoresToSpaces (s : jsstring) : jsstring :=
  List.map (fun c => if N.eqb c 95 then 32%N else c) s.

(** What a step card shows. [cardBody] is the text of the panel that opens
    when the card is expanded. *)
Record Card := {
  cardIcon : Icon;
  cardBubble : jsstring;
  cardStepId : Z;
  cardType : jsstring;
  cardLabel : option jsstring;
  cardShort : jsstring;
  cardChips : list (jsstring * jsstring);
  cardBody : jsstring;
  cardIsLast : bool
}.

Definition StepCard (step : TimelineStep) (isLast : bool) : Card :=
  let shortText := orPlaceholder (short step) shortPlaceholder in
  let bodyText := orPlaceholder (text step) bodyPlaceholder in
  {| cardIcon := getIcon (type step);
     cardBubble := getBubbleBg (type step);
     cardStepId := step_id step;
     cardType := typeName (type step);
     cardLabel := match label step with
                  | Some l => if truthy l then Some l else None
                  | None => None
                  end;
     cardShort := shortText;
     cardChips := match tags step with
                  | Some ts =>
                      List.map (fun tag => (underscoresToSpaces tag, getTagClasses tag)) ts
                  | None => []
                  end;
     cardBody := bodyText;
     cardIsLast := isLast |}.

Inductive TimelineView :=
  | NoTrace (message : jsstring)
  | Trace (cards : list Card).

Definition noTraceMessage : jsstring :=
  lit "No execution trace available for this run yet.".

Fixpoint cardsFrom (index : nat) (n : nat) (steps : list TimelineStep) : list Card :=
  match steps with
  | [] => []
  | step :: rest =>
      StepCard step (Nat.eqb index (n - 1)) :: cardsFrom (S index) n rest
  end.

(** [steps] is [None] when the caller hands in [undefined]. *)
Definition TimelineTab (steps : option (list TimelineStep)) : TimelineView :=
  match steps with
  | None => NoTrace noTraceMessage
  | Some [] => NoTrace noTraceMessage
  | Some l => Trace (cardsFrom 0 (length l) l)
  end.

End TimelineTab.

Import TimelineTab.

(** ** components/MarkdownViewer.tsx *)

Module MarkdownViewer.

Inductive Inline :=
  | Strong (s : jsstring)
  | Plain (s : jsstring).

(** The element a line turns into; [Null] is a line that renders nothing.
    [Grid] keeps the class name of the row, which fixes its columns. *)
Inductive Node :=
  | H3 (s : jsstring)
  | H2 (s : jsstring)
  | Hr
  | Quote (s : jsstring)
  | Bullet (parts : list Inline)
  | Numbered (num : jsstring) (parts : list Inline)
  | Grid (className : jsstring) (cells : list jsstring)
  | Null
  | Spacer
  | Paragraph (parts : list Inline).

Definition star : N := 42%N.

(** The rest of a match of the bold pattern (two stars, a lazy run of
    [.], two stars) after its opening stars: the shortest run without a
    line terminator that two stars close. *)
Fixpoint closeBold (s : jsstring) : option (jsstring * jsstring) :=
  match s with
  | [] => None
  | c :: s' =>
      let closes :=
        match s' with
        | c' :: rest => if N.eqb c star && N.eqb c' star then Some rest else None
        | [] => None
        end in
      match closes with
      | Some rest => Some ([], rest)
      | None =>
          if isLineTerminator c then None
          else match closeBold s' with
               | Some (inner, rest) => Some (c :: inner, rest)
               | None => None
               end
      end
  end.

(** [text.split] on the bold pattern, captured: the pieces between the
    matches and, as the group captures them, the matches.  [seen] is the current piece,
    reversed.  Each step consumes a code unit, so the fuel of [boldSplit]
    is never used up. *)
Fixpoint boldSplitFrom (fuel : nat) (seen : jsstring) (s : jsstring) : list jsstring :=
  match fuel with
  | O => [rev seen ++ s]
  | S fuel' =>
      match s with
      | [] => [rev seen]
      | c :: s' =>
          let found :=
            match s' with
            | c' :: after =>
                if N.eqb c star && N.eqb c' star then closeBold after else None
            | [] => None
            end in
          match found with
          | Some (inner, rest) =>
              rev seen :: ([star; star] ++ inner ++ [star; star])
                       :: boldSplitFrom fuel' [] rest
          | None => boldSplitFrom fuel' (c :: seen) s'
          end
      end
  end.

Definition boldSplit (s : jsstring) : list jsstring :=
  boldSplitFrom (S (length s)) [] s.

(** [part.replace] of every pair of stars by the empty string. *)
Fixpoint stripStars (s : jsstring) : jsstring :=
  match s with
  | [] => []
  | c :: s' =>
      match s' with
      | c' :: rest =>
          if N.eqb c star && N.eqb c' star then stripStars rest
          else c :: stripStars s'
      | [] => [c]
      end
  end.

Definition renderPart (part : jsstring) : Inline :=
  if startsWith [star; star] part then Strong (stripStars part) else Plain part.

Definition renderParts (s : jsstring) : list Inline :=
  List.map renderPart (boldSplit s).

Definition isDigit (c : N) : bool := (N.leb 48 c && N.leb c 57)%N.

Fixpoint dropDigits (s : jsstring) : jsstring :=
  match s with
  | [] => []
  | c :: s' => if isDigit c then dropDigits s' else s
  end.

(** [/^\d+\./.test(line)] *)
Definition numberedTest (line : jsstring) : bool :=
  match line with
  | [] => false
  | c :: s' =>
      isDigit c &&
      match dropDigits s' with
      | d :: _ => N.eqb d 46
      | [] => false
      end
  end.

Definition rowClass (isHeader : bool) : jsstring :=
  lit "grid grid-cols-3 gap-6 py-3 text-[14px] " ++
  (if isHeader then lit "border-b border-gray-200 font-medium text-gray-900"
   else lit "text-gray-600 border-b border-gray-50").

(** The cells of a table row: the pieces of [line.split] on the bar whose
    [trim] is not empty. *)
Definition rowCells (line : jsstring) : list jsstring :=
  List.filter (fun c => truthy (trim c)) (split 124 line).

(** The callback of [lines.map]. *)
Definition renderLine (lines : list jsstring) (idx : nat) (line : jsstring) : Node :=
  if startsWith (lit "## ") line then H3 (replaceFirst (lit "## ") [] line)
  else if startsWith (lit "# ") line then H2 (replaceFirst (lit "# ") [] line)
  else if bool_decide (trim line = lit "---") then Hr
  else if startsWith (lit "> ") line then Quote (replaceFirst (lit "> ") [] line)
  else if startsWith (lit "- ") line then
    Bullet (renderParts (replaceFirst (lit "- ") [] line))
  else if numberedTest line then
    match split 46 line with
    | num :: rest => Numbered num (renderParts (trim (join (lit ".") rest)))
    | [] => Numbered [] (renderParts [])
    end
  else if startsWith (lit "|") line then
    let cols := rowCells line in
    if includes (lit "---") line then Null
    else
      let isHeader :=
        match lines !! S idx with
        | Some next => includes (lit "---") next
        | None => false
        end in
      Grid (rowClass isHeader) cols
  else if bool_decide (trim line = []) then Spacer
  else Paragraph (renderParts line).

Fixpoint renderFrom (lines : list jsstring) (idx : nat) (todo : list jsstring) : list Node :=
  match todo with
  | [] => []
  | line :: rest => renderLine lines idx line :: renderFrom lines (S idx) rest
  end.

Definition MarkdownViewer (content : jsstring) : list Node :=
  let lines := split 10 content in
  renderFrom lines 0 lines.

End MarkdownViewer.

Import MarkdownViewer.

(** ** components/ResultsContainer.tsx *)

Module ResultsContainer.

Definition noTimelineSentence : jsstring :=
  lit "_No structured timeline available for this run yet._".

(** ["## 🕒 Agent Timeline"]: the clock is U+1F552, a surrogate pair. *)
Definition timelineTitle : jsstring :=
  lit "## " ++ [55357%N; 56658%N] ++ lit " Agent Timeline".

Definition timelineIntro : jsstring :=
  lit "Each block below is one step in the agent run: thoughts, tool calls, memory ops, and the final answer.".

Definition rule : jsstring := lit "---".

(** [" — "]: the dash is U+2014. *)
Definition labelSeparator : jsstring := [32%N; 8212%N; 32%N].

(** The callback of [text.split("\n").forEach]: what it pushes for a line. *)
Definition quoteLine (line : jsstring) : jsstring :=
  if truthy (trim line) then lit "> " ++ line else lit ">".

Definition codeSpan (t : jsstring) : jsstring := lit "`" ++ t ++ lit "`".

(** [step.step_id || idx + 1] *)
Definition stepIdOr (id : Z) (idx : nat) : Z :=
  if Z.eqb id 0 then Z.of_nat idx + 1 else id.

Definition stepHeader (idx : nat) (step : TimelineStep) : jsstring :=
  let stepId := stepIdOr (step_id step) idx in
  let kind := orElse (typeName (type step)) (lit "step") in
  let label := orEmpty (label step) in
  let header := lit "### Step " ++ numberToString stepId ++ lit ": `" ++ kind ++ lit "`" in
  if truthy label then header ++ labelSeparator ++ label else header.

(** What one run of the callback of [steps.forEach] pushes onto [lines]. *)
Definition stepLines (idx : nat) (step : TimelineStep) : list jsstring :=
  let short := orEmpty (short step) in
  let text := orEmpty (text step) in
  let tags := match tags step with Some ts => ts | None => [] end in
  [stepHeader idx step; []]
  ++ (if truthy short then [lit "**What this step does:** " ++ short; []] else [])
  ++ (if truthy text then
        [lit "**Detail / excerpt:**"; []]
        ++ List.map quoteLine (split 10 text)
        ++ [[]]
      else [])
  ++ (match tags with
      | [] => []
      | _ :: _ =>
          [lit "**MRI tags:** " ++ join (lit ", ") (List.map codeSpan tags); []]
      end)
  ++ [rule].

(** [steps.forEach((step, idx) => ...)], threading the array [lines]. *)
Fixpoint forEachStep (idx : nat) (steps : list TimelineStep) (lines : list jsstring)
  : list jsstring :=
  match steps with
  | [] => lines
  | step :: rest => forEachStep (S idx) rest (lines ++ stepLines idx step)
  end.

Definition timelinePreamble : list jsstring :=
  [timelineTitle; []; timelineIntro; rule].

(** [steps] is [None] when the caller hands in [undefined]. *)
Definition generateTimelineMarkdown (steps : option (list TimelineStep)) : jsstring :=
  match steps with
  | None => noTimelineSentence
  | Some [] => noTimelineSentence
  | Some l => join (lit (String (ascii_of_nat 10) EmptyString))
                   (forEachStep 0 l timelinePreamble)
  end.

(** *** MRIScoreTab *)

Definition green : jsstring := lit "#10B981".
Definition amber : jsstring := lit "#F59E0B".
Definition red : jsstring := lit "#EF4444".

Definition riskColor (score : Z) : jsstring :=
  if score <? 30 then green else if score <? 70 then amber else red.

Definition chartData (score : Z) : list (jsstring * Z) :=
  [(lit "Risk", score); (lit "Safe", jsSub 100 score)].

Definition levelName (l : RiskLevel) : jsstring :=
  match l with
  | Low => lit "Low"
  | Medium => lit "Medium"
  | High => lit "High"
  end.

Definition badgeClass (l : RiskLevel) : jsstring :=
  match l with
  | Low => lit "bg-green-100 text-green-700"
  | Medium => lit "bg-amber-100 text-amber-700"
  | High => lit "bg-red-100 text-red-700"
  end.

Record ScoreView := {
  pieData : list (jsstring * Z);
  pieFill : jsstring;
  shownScore : Z;
  shownLevel : jsstring;
  shownBadge : jsstring;
  shownTotal : Z;
  shownFlagged : Z;
  failureModes : list (jsstring * Z)
}.

Definition MRIScoreTab (summary : MRISummary) (risk : MRIRisk) : ScoreView :=
  let score := score risk in
  {| pieData := chartData score;
     pieFill := riskColor score;
     shownScore := score;
     shownLevel := levelName (level risk);
     shownBadge := badgeClass (level risk);
     shownTotal := total_steps summary;
     shownFlagged := flagged_steps summary;
     failureModes :=
       List.map (fun '(key, count) => (underscoresToSpaces key, count))
                (by_failure_type summary) |}.

(** *** The tabs *)

Inductive TabContent :=
  | ResponseTab (nodes : list Node)
  | ScoreTab (view : ScoreView)
  | TimelineTabContent (view : TimelineView)
  | LogViewTab (nodes : list Node)
  | ReportTab (nodes : list Node)
  | FeedbackTab (nodes : list Node).

(** Reading a property at its declared type.  The embedding covers the
    objects whose properties, where present, have the types the components
    use them at; [None] from [readString], [readSummary] or [readRisk] is an
    object outside that. *)
Definition readString (data : gmap string Field) (name : string) : option jsstring :=
  match data !! name with Some (FString s) => Some s | _ => None end.

Definition readSummary (data : gmap string Field) (name : string) : option MRISummary :=
  match data !! name with Some (FSummary m) => Some m | _ => None end.

Definition readRisk (data : gmap string Field) (name : string) : option MRIRisk :=
  match data !! name with Some (FRisk r) => Some r | _ => None end.

(** An array of steps, or [None] for [undefined]: a property that the
    object does not have. *)
Definition readSteps (data : gmap string Field) (name : string)
  : option (list TimelineStep) :=
  match data !! name with Some (FSteps l) => Some l | _ => None end.

(** The content under the tab header for the active tab; [None] when there
    is nothing to show ([data] is [null], or no tab has that number). *)
Definition tabContent (data : option (gmap string Field)) (activeTab : nat)
  : option TabContent :=
  match data with
  | None => None
  | Some data =>
      match activeTab with
      | 0%nat =>
          s ← readString data "final_answer_md"; Some (ResponseTab (MarkdownViewer s))
      | 1%nat =>
          m ← readSummary data "summary";
          r ← readRisk data "risk";
          Some (ScoreTab (MRIScoreTab m r))
      | 2%nat =>
          Some (TimelineTabContent (TimelineTab (readSteps data "timeline_steps")))
      | 3%nat =>
          Some (LogViewTab
                  (MarkdownViewer (generateTimelineMarkdown (readSteps data "timeline_steps"))))
      | 4%nat =>
          s ← readString data "report_markdown"; Some (ReportTab (MarkdownViewer s))
      | 5%nat =>
          s ← readString data "critic_markdown"; Some (FeedbackTab (MarkdownViewer s))
      | _ => None
      end
  end.

End ResultsContainer.

Import ResultsContainer.

(** ** What the specification says, in its own terms

    The definitions below follow the words of the specification; the
    theorems compare the code with them. *)

Module Contract.

(** The severity registry of the specification: the known risk tags and the
    severity each is bound to. *)
Definition registry : list (jsstring * Severity) :=
  [ (lit "tool_error", high);
    (lit "tool_misuse", high);
    (lit "hallucination_risk", high);
    (lit "overconfident_no_citation", high);
    (lit "weak_grounding", medium);
    (lit "speculative_metrics", medium);
    (lit "memory_drift", medium);
    (lit "apology", low) ].

Fixpoint registered (table : list (jsstring * Severity)) (tag : jsstring)
  : option Severity :=
  match table with
  | [] => None
  | (name, sev) :: rest =>
      if bool_decide (name = tag) then Some sev else registered rest tag
  end.

(** A tag outside the registry has severity low. *)
Definition specSeverity (tag : jsstring) : Severity :=
  match registered registry tag with
  | Some sev => sev
  | None => low
  end.

(** Level banding: below 30 Low, from 30 and below 70 Medium, from 70 High. *)
Inductive banding : Z -> RiskLevel -> Prop :=
  | banding_low score : score < 30 -> banding score Low
  | banding_medium score : 30 <= score < 70 -> banding score Medium
  | banding_high score : score >= 70 -> banding score High.

(** The colour the score view gives each band: the family of the badge of
    the level, in the shade of the chart. *)
Definition bandColor (l : RiskLevel) : jsstring :=
  match l with
  | Low => green
  | Medium => amber
  | High => red
  end.

(** The caption, the one-line summary and the tag identifiers of a step
    are single lines. *)
Definition singleLineFields (step : TimelineStep) : bool :=
  oneLine (orEmpty (label step))
  && oneLine (orEmpty (short step))
  && forallb oneLine (match tags step with Some ts => ts | None => [] end).

(** A step of the data model: the identifier is set (positive in the data
    model; zero is what the generator takes for a missing one), and its
    fields are single lines. *)
Definition wellFormed (step : TimelineStep) : bool :=
  negb (Z.eqb (step_id step) 0) && singleLineFields step.

(** The step under another identifier. *)
Definition withStepId (id : Z) (step : TimelineStep) : TimelineStep :=
  {| step_id := id;
     type := type step;
     label := label step;
     short := short step;
     text := text step;
     tags := tags step |}.

(** A line is the heading of a step section. *)
Definition isStepHeading (line : jsstring) : bool :=
  startsWith (lit "### Step ") line.

(** The heading of the section of a step: identifier, kind in a code span,
    and the label as a suffix when there is one. *)
Definition headingOf (step : TimelineStep) : jsstring :=
  lit "### Step " ++ numberToString (step_id step)
  ++ lit ": `" ++ typeName (type step) ++ lit "`"
  ++ match label step with
     | Some l => if truthy l then labelSeparator ++ l else []
     | None => []
     end.

(** The sections of the document: for each step, in order, the lines its
    run of the callback pushes. *)
Fixpoint sectionsFrom (idx : nat) (steps : list TimelineStep) : list (list jsstring) :=
  match steps with
  | [] => []
  | step :: rest => stepLines idx step :: sectionsFrom (S idx) rest
  end.

(** A line of the text of a step as the blockquote shows it. *)
Definition quoted (line : jsstring) : jsstring :=
  if blank line then lit ">" else lit "> " ++ line.

(** The level of a heading line: the number of hashes in front of the
    space that follows them. *)
Fixpoint hashes (line : jsstring) : nat * jsstring :=
  match line with
  | c :: rest =>
      if N.eqb c 35 then let '(n, after) := hashes rest in (S n, after)
      else (O, line)
  | [] => (O, [])
  end.

Definition headingLevel (line : jsstring) : option nat :=
  match hashes line with
  | (S n, c :: _) => if N.eqb c 32 then Some (S n) else None
  | _ => None
  end.

(** The fixed subset allows headings of the first two levels only. *)
Definition inSubset (line : jsstring) : bool :=
  match headingLevel line with
  | Some n => Nat.leb n 2
  | None => true
  end.

(** The lines the timeline generator writes. *)
Inductive TimelineLine : jsstring -> Prop :=
  | line_title : TimelineLine timelineTitle
  | line_intro : TimelineLine timelineIntro
  | line_empty : TimelineLine []
  | line_rule : TimelineLine rule
  | line_heading step : TimelineLine (headingOf step)
  | line_short s : TimelineLine (lit "**What this step does:** " ++ s)
  | line_detail : TimelineLine (lit "**Detail / excerpt:**")
  | line_quote s : TimelineLine (lit "> " ++ s)
  | line_bare_quote : TimelineLine (lit ">")
  | line_tags ts :
      TimelineLine (lit "**MRI tags:** " ++ join (lit ", ") (List.map codeSpan ts))
  | line_none : TimelineLine noTimelineSentence.

(** What the body of a section (its lines between the heading and the
    closing rule) consists of. *)
Definition bodyLine (line : jsstring) : Prop :=
  isStepHeading line = false /\ line <> rule /\ oneLine line = true
  /\ TimelineLine line.

(** The section of a step: a heading for the step, which is the heading of
    the step itself when its identifier is set, a body and the closing rule. *)
Definition sectionOf (step : TimelineStep) (section : list jsstring) : Prop :=
  exists heading body,
    section = heading :: body ++ [rule]
    /\ Forall bodyLine body
    /\ oneLine heading = true
    /\ (exists id, heading = headingOf (withStepId id step))
    /\ (step_id step <> 0 -> heading = headingOf step).

End Contract.

Import Contract.

(** ** Sample inputs *)

Module Samples.

(** A planning step with a caption, a summary, a text of three lines (the
    second blank) and one tag. *)
Definition planStep : TimelineStep :=
  {| step_id := 1;
     type := thought;
     label := Some (lit "plan");
     short := Some (lit "Plan the work");
     text := Some (lit "first line" ++ [10%N; 32%N; 10%N] ++ lit "third line");
     tags := Some [lit "apology"] |}.

(** A final answer that carries nothing but its identifier and kind. *)
Definition answerStep : TimelineStep :=
  {| step_id := 2;
     type := final_answer;
     label := None;
     short := None;
     text := None;
     tags := None |}.

Definition sampleSteps : list TimelineStep := [planStep; answerStep].

(** A response of the declared shape that carries the two steps. *)
Definition sampleResponse : InternRunResponse :=
  {| final_answer_md := lit "Done.";
     summary := {| total_steps := 2; flagged_steps := 1;
                   by_failure_type := [(lit "apology", 1)] |};
     risk := {| score := 12; level := Low |};
     steps := sampleSteps;
     report_markdown := lit "# Incident report";
     critic_markdown := lit "No feedback available." |}.

(** A table of a header, a separator and a row of four cells. *)
Definition sampleTable : jsstring :=
  lit "| tag | count |" ++ [10%N] ++ lit "|---|---|" ++ [10%N]
  ++ lit "| a | b | c | d |".

End Samples.

Import Samples.

(** ** App.tsx and components/ControlCard.tsx *)

Module App.

(** [ChaosMode] of types.ts. *)
Inductive ChaosMode :=
  | modeDefault | modeHallucination | modeToolMisuse | modeMemoryLoss.

Inductive Status := Idle | Running | Done | Error.

(** The state of [App]: its five [useState] cells. *)
Record AppState := {
  task : jsstring;
  mode : ChaosMode;
  status : Status;
  results : option (gmap string Field);
  error : option jsstring
}.

Definition initialTask : jsstring := lit "Summarize the top 3 AI security risks.".

Definition initialState : AppState :=
  {| task := initialTask; mode := modeDefault; status := Idle;
     results := None; error := None |}.

(** What the [catch] clause is handed: [null] or [undefined], or a value
    whose [message] may be missing. *)
Inductive Thrown :=
  | ThrownNullish
  | ThrownValue (message : option jsstring).

(** How the awaited call of [runIntern] ends. *)
Inductive Outcome :=
  | Resolved (data : gmap string Field)
  | Rejected (err : Thrown).

Definition unexpectedError : jsstring :=
  lit "Unexpected error while contacting Agent MRI.".

(** [err?.message ?? unexpectedError] *)
Definition errorMessage (err : Thrown) : jsstring :=
  match err with
  | ThrownValue (Some message) => message
  | _ => unexpectedError
  end.

(** [handleRun] up to its [await]: [None] when it returns at once on a
    blank task; otherwise the state after [setStatus] and [setError], and
    the arguments of the call of [runIntern]. *)
Definition handleRunBegin (st : AppState) : option (AppState * (jsstring * ChaosMode)) :=
  if truthy (trim (task st)) then
    Some ({| task := task st; mode := mode st; status := Running;
             results := results st; error := None |},
          (task st, mode st))
  else None.

(** [handleRun] after its [await]: the [try] branch on a resolved call, the
    [catch] branch on a rejected one. *)
Definition handleRunSettle (st : AppState) (outcome : Outcome) : AppState :=
  match outcome with
  | Resolved data =>
      {| task := task st; mode := mode st; status := Done;
         results := Some data; error := error st |}
  | Rejected err =>
      {| task := task st; mode := mode st; status := Error;
         results := results st; error := Some (errorMessage err) |}
  end.

(** *** ControlCard *)

Record ControlView := {
  buttonDisabled : bool;
  buttonLabel : jsstring;
  statusText : option jsstring
}.

Definition isRunning (s : Status) : bool :=
  match s with Running => true | _ => false end.

Definition ControlCard (task : jsstring) (status : Status) : ControlView :=
  {| buttonDisabled := isRunning status || negb (truthy task);
     buttonLabel := if isRunning status then lit "Processing..." else lit "Run Simulation";
     statusText :=
       match status with
       | Idle => None
       | Running => Some (lit "Running logic trace...")
       | Done => Some (lit "Analysis Complete")
       | Error => Some (lit "Simulation failed")
       end |}.

(** *** What App renders *)

(** The control card, the error banner ([error && ...]: a message that is
    set and not empty) and the data handed to [ResultsContainer]
    ([results && ...]). *)
Record AppView := {
  control : ControlView;
  banner : option jsstring;
  shown : option (gmap string Field)
}.

Definition render (st : AppState) : AppView :=
  {| control := ControlCard (task st) (status st);
     banner := match error st with
               | Some message => if truthy message then Some message else None
               | None => None
               end;
     shown := results st |}.

(** *** The page as a machine

    The state of [App] and the number of calls of [runIntern] that are
    awaited.  An event that cannot happen (a click on a disabled button, a
    call settling when none is awaited) has no successor. *)
Record Machine := {
  app : AppState;
  pending : nat
}.

Inductive Event :=
  | TypeTask (t : jsstring)
  | SelectMode (m : ChaosMode)
  | Click
  | Settle (outcome : Outcome).

Definition initialMachine : Machine := {| app := initialState; pending := 0 |}.

Definition step (m : Machine) (ev : Event) : option Machine :=
  let st := app m in
  match ev with
  | TypeTask t =>
      Some {| app := {| task := t; mode := mode st; status := status st;
                        results := results st; error := error st |};
              pending := pending m |}
  | SelectMode md =>
      Some {| app := {| task := task st; mode := md; status := status st;
                        results := results st; error := error st |};
              pending := pending m |}
  | Click =>
      if buttonDisabled (control (render st)) then None
      else match handleRunBegin st with
           | Some (st', _) => Some {| app := st'; pending := S (pending m) |}
           | None => Some m
           end
  | Settle outcome =>
      match pending m with
      | O => None
      | S n => Some {| app := handleRunSettle st outcome; pending := n |}
      end
  end.

Fixpoint run (m : Machine) (events : list Event) : option Machine :=
  match events with
  | [] => Some m
  | ev :: rest =>
      match step m ev with
      | Some m' => run m' rest
      | None => None
      end
  end.

(** What holds of the page between events: at most one call is awaited, and
    that exactly while the status is running; results and error go with the
    status. *)
Definition consistent (m : Machine) : Prop :=
  (pending m <= 1)%nat
  /\ (pending m = 1%nat <-> status (app m) = Running)
  /\ match status (app m) with
     | Idle => results (app m) = None /\ error (app m) = None
     | Running => error (app m) = None
     | Done => is_Some (results (app m)) /\ error (app m) = None
     | Error => is_Some (error (app m))
     end.

End App.

(** ** services/agentMriApi.ts *)

Module AgentMriApi.

(** What the body of a response gives when it is read: the value, or the
    rejection of the read. *)
Inductive Read (A : Type) :=
  | ReadOk (value : A)
  | ReadFails (err : App.Thrown).

Arguments ReadOk {A} value.
Arguments ReadFails {A} err.

(** The response of [fetch], as far as [runIntern] looks at it. *)
Record HttpResponse := {
  ok : bool;
  httpStatus : Z;
  bodyText : Read jsstring;
  bodyJson : Read (gmap string Field)
}.

(** How the awaited [fetch] ends. *)
Inductive Fetched :=
  | FetchRejected (err : App.Thrown)
  | FetchResponse (resp : HttpResponse).

Definition apiErrorMessage (status : Z) (errorText : jsstring) : jsstring :=
  lit "Agent MRI API error " ++ numberToString status ++ lit ": " ++ errorText.

(** [runIntern], given how its [fetch] ends.  The request it posts is the
    pair of its arguments and plays no part in what it returns. *)
Definition runIntern (fetched : Fetched) : App.Outcome :=
  match fetched with
  | FetchRejected err => App.Rejected err
  | FetchResponse resp =>
      if negb (ok resp) then
        match bodyText resp with
        | ReadOk errorText =>
            App.Rejected
              (App.ThrownValue (Some (apiErrorMessage (httpStatus resp) errorText)))
        | ReadFails err => App.Rejected err
        end
      else
        match bodyJson resp with
        | ReadOk data => App.Resolved data
        | ReadFails err => App.Rejected err
        end
  end.

End AgentMriApi.

(** ** Sample sessions *)

Module PageSamples.

(** A run that fails with nothing thrown to read, then a run that resolves
    with the sample response. *)
Definition sampleSession : list App.Event :=
  [ App.Click; App.Settle (App.Rejected App.ThrownNullish);
    App.SelectMode App.modeHallucination;
    App.Click; App.Settle (App.Resolved (toObject sampleResponse)) ].

(** After the sample session, a run that fails with a message. *)
Definition failingSession : list App.Event :=
  sampleSession
  ++ [ App.Click;
       App.Settle (App.Rejected (App.ThrownValue (Some (lit "Failed to fetch")))) ].

(** The first page with its task overwritten by one space. *)
Definition blankTaskPage : App.Machine :=
  {| App.app := {| App.task := lit " "; App.mode := App.modeDefault;
                   App.status := App.Idle; App.results := None;
                   App.error := None |};
     App.pending := 0 |}.

(** A page that shows the sample response, and the page after a further
    run from it has failed. *)
Definition shownPage : App.Machine :=
  {| App.app := {| App.task := App.initialTask; App.mode := App.modeHallucination;
                   App.status := App.Done;
                   App.results := Some (toObject sampleResponse);
                   App.error := None |};
     App.pending := 0 |}.

Definition failedPage : App.Machine :=
  {| App.app := {| App.task := App.initialTask; App.mode := App.modeHallucination;
                   App.status := App.Error;
                   App.results := Some (toObject sampleResponse);
                   App.error := Some App.unexpectedError |};
     App.pending := 0 |}.

(** A response of the backend that is not ok. *)
Definition serverError : AgentMriApi.HttpResponse :=
  {| AgentMriApi.ok := false;
     AgentMriApi.httpStatus := 500;
     AgentMriApi.bodyText := AgentMriApi.ReadOk (lit "Internal Server Error");
     AgentMriApi.bodyJson := AgentMriApi.ReadFails App.ThrownNullish |}.

(** A step whose summary runs over two lines, the second of which reads as
    the heading of a step. *)
Definition twoLineSummaryStep : TimelineStep :=
  {| step_id := 1;
     type := thought;
     label := None;
     short := Some (lit "Plan the work" ++ [10%N] ++ lit "### Step 9: `thought`");
     text := None;
     tags := None |}.

(** A response whose score is the least safe integer. *)
Definition hugeNegativeRisk : MRIRisk :=
  {| score := -9007199254740991; level := Low |}.

(** Two steps that carry no identifier. *)
Definition unnumberedSteps : list TimelineStep :=
  [withStepId 0 planStep; withStepId 0 answerStep].

End PageSamples.

Import PageSamples.

(** ** Readings of the rendered document *)

Module Reading.

Definition isHr (node : Node) : bool :=
  match node with Hr => true | _ => false end.

(** The elements the log view is made of. *)
Definition logViewNode (node : Node) : bool :=
  match node with
  | H3 _ | Paragraph _ | Spacer | Hr | Quote _ => true
  | _ => false
  end.

(** The headings the generator writes for a sequence, from position [idx]. *)
Fixpoint headersFrom (idx : nat) (steps : list TimelineStep) : list jsstring :=
  match steps with
  | [] => []
  | step :: rest => stepHeader idx step :: headersFrom (S idx) rest
  end.

(** A code unit that opens no construct of the viewer and is no white
    space. *)
Definition plainHead (c : N) : bool :=
  negb (isWhiteSpace c) && negb (isDigit c)
  && negb (N.eqb c 35) && negb (N.eqb c 62) && negb (N.eqb c 45) && negb (N.eqb c 124).

Definition hasLineTerminator (s : jsstring) : bool := existsb isLineTerminator s.

End Reading.

Import Reading.

(** * Properties *)

(** ** Strings: trim, split and join *)

Section StringFacts.

Implicit Types (s t : list N) (c : N) (pieces : list (list N)).

Lemma trimStart_nil_iff s : trimStart s = [] <-> blank s = true.
Proof.
  induction s as [|c s IH]; simpl; [tauto|].
  destruct (isWhiteSpace c); simpl; [exact IH|].
  split; discriminate.
Qed.

Lemma trimStart_snoc s c :
  isWhiteSpace c = false -> trimStart (s ++ [c]) = trimStart s ++ [c].
Proof.
  intros Hc. induction s as [|d s IH]; simpl.
  - now rewrite Hc.
  - destruct (isWhiteSpace d); [exact IH | reflexivity].
Qed.

Lemma trimStart_head s c :
  isWhiteSpace c = false -> trimStart (c :: s) = c :: s.
Proof. intros Hc. simpl. now rewrite Hc. Qed.

(** A string that starts with a code unit that is not white space keeps
    that code unit in front when trimmed. *)
Lemma trim_head s c :
  isWhiteSpace c = false -> exists t, trim (c :: s) = c :: t.
Proof.
  intros Hc. unfold trim, trimEnd. rewrite trimStart_head by exact Hc.
  change (rev (c :: s)) with (rev s ++ [c]).
  rewrite trimStart_snoc by exact Hc.
  rewrite rev_app_distr. simpl. eauto.
Qed.

Lemma blank_app s t : blank (s ++ t) = blank s && blank t.
Proof. unfold blank. apply forallb_app. Qed.

Lemma blank_rev s : blank (rev s) = blank s.
Proof.
  induction s as [|c s IH]; simpl; [reflexivity|].
  rewrite blank_app, IH. simpl. rewrite andb_true_r. apply andb_comm.
Qed.

Lemma trimStart_blank s : blank s = true -> trimStart s = [].
Proof. apply trimStart_nil_iff. Qed.

Lemma trimStart_not_blank s : blank s = false -> blank (trimStart s) = false.
Proof.
  induction s as [|c s IH]; simpl; [discriminate|].
  destruct (isWhiteSpace c) eqn:Hc; simpl; [exact IH|].
  now rewrite Hc.
Qed.

(** [trim] yields the empty string exactly on blank strings. *)
Lemma trim_nil_iff s : trim s = [] <-> blank s = true.
Proof.
  unfold trim, trimEnd. split.
  - intros H. destruct (blank s) eqn:Hb; [reflexivity|].
    apply trimStart_not_blank in Hb.
    assert (Hr : trimStart (rev (trimStart s)) = []).
    { destruct (trimStart (rev (trimStart s))) as [|x l]; [reflexivity|].
      simpl in H. now destruct (rev l). }
    apply trimStart_nil_iff in Hr. rewrite blank_rev in Hr. congruence.
  - intros Hb. now rewrite (trimStart_blank s Hb).
Qed.

Lemma truthy_trim s : truthy (trim s) = negb (blank s).
Proof.
  destruct (blank s) eqn:Hb.
  - apply trim_nil_iff in Hb. now rewrite Hb.
  - destruct (trim s) eqn:Ht; [|reflexivity].
    apply trim_nil_iff in Ht. congruence.
Qed.

Lemma split_not_nil c s : split c s <> [].
Proof.
  destruct s as [|d s]; simpl; [discriminate|].
  destruct (N.eqb d c); [discriminate|]. now destruct (split c s).
Qed.

(** No piece of a split holds the separator. *)
Lemma split_pieces_free c s : Forall (fun p => ~ In c p) (split c s).
Proof.
  induction s as [|d s IH]; simpl.
  - constructor; [tauto | constructor].
  - destruct (N.eqb_spec d c) as [->|Hne].
    + constructor; [tauto | exact IH].
    + destruct (split c s) as [|cur rest].
      * constructor; [|constructor]. simpl. intros [E|[]]. congruence.
      * inversion IH; subst. constructor; [|assumption].
        simpl. intros [E|E]; [congruence | tauto].
Qed.

Lemma split_free c s : ~ In c s -> split c s = [s].
Proof.
  induction s as [|d s IH]; simpl; [reflexivity|].
  intros H. destruct (N.eqb_spec d c) as [->|Hne]; [tauto|].
  rewrite IH by tauto. reflexivity.
Qed.

Lemma split_app_sep c s t :
  ~ In c s -> split c (s ++ c :: t) = s :: split c t.
Proof.
  induction s as [|d s IH]; simpl; intros H.
  - now rewrite N.eqb_refl.
  - destruct (N.eqb_spec d c) as [->|Hne]; [tauto|].
    rewrite IH by tauto. reflexivity.
Qed.

(** Splitting what was joined gives the pieces back, when no piece holds
    the separator. *)
Lemma split_join c pieces :
  pieces <> [] -> Forall (fun p => ~ In c p) pieces ->
  split c (join [c] pieces) = pieces.
Proof.
  induction pieces as [|p rest IH]; [congruence|].
  intros _ H. inversion H as [|? ? Hp Hrest]; subst.
  destruct rest as [|q rest'].
  - simpl. now apply split_free.
  - change (join [c] (p :: q :: rest')) with (p ++ c :: join [c] (q :: rest')).
    rewrite split_app_sep by exact Hp. f_equal. apply IH; [discriminate | exact Hrest].
Qed.

Lemma join_app sep (a b : list (list N)) :
  a <> [] -> b <> [] -> join sep (a ++ b) = join sep a ++ sep ++ join sep b.
Proof.
  induction a as [|p a IH]; [congruence|]. intros _ Hb.
  destruct a as [|q a'].
  - simpl. destruct b; [congruence | reflexivity].
  - change (join sep ((p :: q :: a') ++ b)) with (p ++ sep ++ join sep ((q :: a') ++ b)).
    rewrite IH by (discriminate || exact Hb).
    change (join sep (p :: q :: a')) with (p ++ sep ++ join sep (q :: a')).
    now rewrite <- !app_assoc.
Qed.

Lemma oneLine_spec s : oneLine s = true <-> ~ In 10%N s.
Proof.
  unfold oneLine. induction s as [|c s IH]; simpl; [tauto|].
  rewrite andb_true_iff, IH. destruct (N.eqb_spec c 10); simpl; intuition congruence.
Qed.

Lemma oneLine_app s t : oneLine (s ++ t) = oneLine s && oneLine t.
Proof. unfold oneLine. apply forallb_app. Qed.

Lemma oneLine_digits u : oneLine (digits u) = true.
Proof. induction u; simpl; auto. Qed.

Lemma oneLine_numberToString z : oneLine (numberToString z) = true.
Proof. destruct z; simpl; auto using oneLine_digits. Qed.

Lemma forallb_Forall {A} (f : A -> bool) (l : list A) :
  forallb f l = true <-> Forall (fun x => f x = true) l.
Proof.
  induction l as [|x l IH]; simpl.
  - split; [constructor | reflexivity].
  - rewrite andb_true_iff, IH. split.
    + intros [? ?]. now constructor.
    + intros H. inversion H. tauto.
Qed.

Lemma filter_cons_true {A} (f : A -> bool) (x : A) (l : list A) :
  f x = true -> List.filter f (x :: l) = x :: List.filter f l.
Proof. intros H. simpl. now rewrite H. Qed.

Lemma filter_cons_false {A} (f : A -> bool) (x : A) (l : list A) :
  f x = false -> List.filter f (x :: l) = List.filter f l.
Proof. intros H. simpl. now rewrite H. Qed.

Lemma startsWith_app pre s : startsWith pre (pre ++ s) = true.
Proof. induction pre as [|p pre IH]; simpl; [reflexivity|]. now rewrite N.eqb_refl. Qed.

End StringFacts.

(** ** The severity registry *)

Section Registry.

Lemma registered_none (tag : list N) :
  Forall (fun entry => fst entry <> tag) registry ->
  tagSeverity !! tag = None /\ registered registry tag = None.
Proof.
  intros H. unfold registry in H.
  repeat match goal with
         | H : Forall _ (_ :: _) |- _ => apply Forall_cons_iff in H; destruct H as [? H]
         end.
  simpl in *. split.
  - unfold tagSeverity. now rewrite !lookup_insert_ne, lookup_empty by assumption.
  - unfold registry. simpl. now rewrite !bool_decide_eq_false_2 by assumption.
Qed.

(** A tag is one of the registered names, or differs from each. *)
Lemma registry_cases (tag : list N) :
  In tag (List.map fst registry) \/ Forall (fun entry => fst entry <> tag) registry.
Proof.
  destruct (decide (Forall (fun entry => fst entry <> tag) registry)) as [H|H];
    [now right | left].
  apply not_Forall_Exists in H; [|intros x; apply _].
  apply Exists_exists in H. destruct H as [[name sev] [Hin Hname]].
  apply dec_stable in Hname. simpl in Hname. subst name.
  apply list_elem_of_In in Hin. now apply (in_map fst) in Hin.
Qed.

Lemma severityOf_registered (tag : list N) : severityOf tag = specSeverity tag.
Proof.
  destruct (registry_cases tag) as [H|H].
  - simpl in H. repeat (destruct H as [<-|H]; [vm_compute; reflexivity|]). destruct H.
  - unfold severityOf, specSeverity.
    destruct (registered_none tag H) as [-> ->]. reflexivity.
Qed.

End Registry.

(** C4. The registry of the step view binds the eight known risk tags to the
    severities of the specification (four high, three medium, one low), a tag
    has one severity, and every tag outside the registry is read, and styled,
    as severity low. *)
Theorem severity_registry_as_specified :
  List.map (fun entry => severityOf (fst entry)) registry = List.map snd registry
  /\ forall tag : list N,
       severityOf tag = specSeverity tag
       /\ getTagClasses tag =
            match specSeverity tag with
            | high => highClasses
            | medium => mediumClasses
            | low => lowClasses
            end
       /\ (tagSeverity !! tag = None <-> registered registry tag = None).
Proof.
  split; [vm_compute; reflexivity|].
  intros tag. split; [apply severityOf_registered|]. split.
  - unfold getTagClasses. now rewrite severityOf_registered.
  - destruct (registry_cases tag) as [H|H].
    + simpl in H.
      repeat (destruct H as [<-|H]; [vm_compute; split; discriminate|]). destruct H.
    + destruct (registered_none tag H) as [-> ->]. tauto.
Qed.

(** ** The score view *)

Lemma band_colors_differ (l l' : RiskLevel) : bandColor l = bandColor l' -> l = l'.
Proof. destruct l, l'; vm_compute; congruence. Qed.

(** C5. The band the score view colours a score with is the band of the
    level-banding contract: Low exactly below 30, Medium exactly from 30 and
    below 70, High exactly from 70. *)
Theorem score_banding_refines_contract (score : Z) (l : RiskLevel) :
  riskColor score = bandColor l <-> banding score l.
Proof.
  unfold riskColor.
  destruct (Z.ltb_spec score 30) as [H30|H30];
    [|destruct (Z.ltb_spec score 70) as [H70|H70]].
  - change green with (bandColor Low). split.
    + intros E. apply band_colors_differ in E. subst l. now constructor.
    + intros B. inversion B; subst; (reflexivity || lia).
  - change amber with (bandColor Medium). split.
    + intros E. apply band_colors_differ in E. subst l. now constructor.
    + intros B. inversion B; subst; (reflexivity || lia).
  - change red with (bandColor High). split.
    + intros E. apply band_colors_differ in E. subst l. constructor. lia.
    + intros B. inversion B; subst; (reflexivity || lia).
Qed.

Section Doubles.

Lemma roundToDouble_exact (x : Z) : Z.abs x <= 2 ^ 53 -> roundToDouble x = x.
Proof.
  intros H. unfold roundToDouble.
  destruct (Z.leb_spec (Z.abs x) (2 ^ 53)); [reflexivity | lia].
Qed.

(** Rounding keeps the sign. *)
Lemma roundToDouble_nonneg (x : Z) : 0 <= roundToDouble x <-> 0 <= x.
Proof.
  unfold roundToDouble.
  destruct (Z.leb_spec (Z.abs x) (2 ^ 53)) as [|Hbig]; [tauto|].
  cbv zeta.
  set (a := Z.abs x) in *.
  assert (Ha : 0 < a) by (pose proof (Z.pow_pos_nonneg 2 53); lia).
  assert (Hlog : 53 <= Z.log2 a).
  { apply Z.log2_le_pow2; [exact Ha | lia]. }
  set (ulp := 2 ^ (Z.log2 a - 52)).
  assert (Hulp : 0 < ulp) by (apply Z.pow_pos_nonneg; lia).
  assert (Hle : ulp <= a).
  { transitivity (2 ^ Z.log2 a).
    - apply Z.pow_le_mono_r; lia.
    - apply Z.log2_spec. exact Ha. }
  assert (Hq : 1 <= a / ulp).
  { apply Z.div_le_lower_bound; lia. }
  set (k := if (if 2 * (a mod ulp) <? ulp then false
                else if ulp <? 2 * (a mod ulp) then true else Z.odd (a / ulp))
            then a / ulp + 1 else a / ulp).
  assert (Hk : 1 <= k) by (unfold k; repeat case_match; lia).
  assert (Hpos : 0 < k * ulp) by nia.
  subst a. destruct (Z.abs_spec x) as [[Hx _] | [Hx _]].
  - rewrite Z.sgn_pos by lia. lia.
  - rewrite Z.sgn_neg by lia. lia.
Qed.

End Doubles.

(** C9, as the specification states it, fails: the second segment is the
    double nearest to 100 minus the score, and at the least safe integer
    that is one more than the exact difference, so the two segments add up
    to 101. *)
Lemma chart_sum_off :
  ~ (forall (summary : MRISummary) (risk : MRIRisk),
       List.fold_right Z.add 0 (List.map snd (pieData (MRIScoreTab summary risk))) = 100).
Proof.
  intros H. specialize (H (summary sampleResponse) hugeNegativeRisk).
  vm_compute in H. discriminate.
Qed.

(** C9, amended. The chart of the score view has two segments, the score and
    the double 100 minus the score, on the score as it was received,
    unclamped; both are non-negative exactly when the score lies between 0
    and 100; they add up to 100 exactly when the exact difference is itself a
    double, which it is whenever its magnitude is at most 2^53, the scores
    from 0 to 100 among them. *)
Theorem chart_segments (summary : MRISummary) (risk : MRIRisk) :
  let view := MRIScoreTab summary risk in
  let total := List.fold_right Z.add 0 (List.map snd (pieData view)) in
  pieData view = [(lit "Risk", score risk); (lit "Safe", jsSub 100 (score risk))]
  /\ shownScore view = score risk
  /\ (Forall (fun segment => 0 <= snd segment) (pieData view)
      <-> 0 <= score risk <= 100)
  /\ (total = 100 <-> roundToDouble (100 - score risk) = 100 - score risk)
  /\ (Z.abs (100 - score risk) <= 2 ^ 53 ->
      total = 100 /\ jsSub 100 (score risk) = 100 - score risk).
Proof.
  cbv zeta. unfold MRIScoreTab. cbn [pieData shownScore]. unfold chartData.
  cbn [List.map snd List.fold_right]. unfold jsSub.
  destruct (roundToDouble_nonneg (100 - score risk)) as [Hsign1 Hsign2].
  split; [reflexivity|]. split; [reflexivity|]. split; [|split].
  - split.
    + intros H. inversion H as [|? ? H1 H']. inversion H' as [|? ? H2 _].
      cbn [snd] in H1, H2. apply Hsign1 in H2. lia.
    + intros [H0 H100]. constructor; [exact H0|]. constructor; [|constructor].
      cbn [snd]. apply Hsign2. lia.
  - lia.
  - intros Hfit. rewrite (roundToDouble_exact _ Hfit). lia.
Qed.

Lemma chart_segments_witness :
  Z.abs (100 - score (risk sampleResponse)) <= 2 ^ 53
  /\ List.fold_right Z.add 0
       (List.map snd (pieData (MRIScoreTab (summary sampleResponse) (risk sampleResponse))))
     = 100.
Proof.
  assert (Hfit : Z.abs (100 - score (risk sampleResponse)) <= 2 ^ 53)
    by (vm_compute; discriminate).
  split; [exact Hfit|].
  exact (proj1 (proj2 (proj2 (proj2 (proj2
           (chart_segments (summary sampleResponse) (risk sampleResponse))))) Hfit)).
Defined.

(** ** The step card *)



(** ** The timeline markdown *)

Section Timeline.

Implicit Types (step : TimelineStep) (steps : list TimelineStep).
Implicit Types (line : list N) (lines : list (list N)).

Lemma forEachStep_sections idx steps lines :
  forEachStep idx steps lines = lines ++ concat (sectionsFrom idx steps).
Proof.
  revert idx lines. induction steps as [|step rest IH]; intros idx lines; simpl.
  - now rewrite app_nil_r.
  - rewrite IH. now rewrite <- app_assoc.
Qed.

Lemma sectionsFrom_app idx steps steps' :
  sectionsFrom idx (steps ++ steps') =
  sectionsFrom idx steps ++ sectionsFrom (idx + length steps) steps'.
Proof.
  revert idx. induction steps as [|step rest IH]; intros idx; simpl.
  - now rewrite Nat.add_0_r.
  - rewrite IH. now rewrite Nat.add_succ_r.
Qed.

Lemma newline_literal : lit (String (ascii_of_nat 10) EmptyString) = [10%N].
Proof. reflexivity. Qed.

(** The document of a sequence that is not empty: the preamble and then
    the sections, joined by line feeds. *)
Lemma generateTimelineMarkdown_sections steps :
  steps <> [] ->
  generateTimelineMarkdown (Some steps) =
  join [10%N] (timelinePreamble ++ concat (sectionsFrom 0 steps)).
Proof.
  intros Hne. destruct steps as [|step rest]; [congruence|].
  unfold generateTimelineMarkdown.
  now rewrite newline_literal, forEachStep_sections.
Qed.

Lemma quoteLine_quoted line : quoteLine line = quoted line.
Proof.
  unfold quoteLine, quoted. rewrite truthy_trim. now destruct (blank line).
Qed.

Lemma typeName_truthy t : orElse (typeName t) (lit "step") = typeName t.
Proof. now destruct t. Qed.

Lemma stepHeader_withStepId idx step :
  stepHeader idx step = headingOf (withStepId (stepIdOr (step_id step) idx) step).
Proof.
  destruct step as [id ty lb sh tx tg].
  unfold stepHeader, headingOf, withStepId. cbn [step_id type label].
  rewrite typeName_truthy.
  destruct lb as [l|]; cbn [orEmpty].
  - destruct (truthy l).
    + now rewrite <- !app_assoc.
    + now rewrite app_nil_r.
  - simpl truthy. cbv iota. now rewrite app_nil_r.
Qed.

Lemma stepHeader_headingOf idx step :
  step_id step <> 0 -> stepHeader idx step = headingOf step.
Proof.
  intros Hid. rewrite stepHeader_withStepId. unfold stepIdOr.
  destruct (Z.eqb_spec (step_id step) 0) as [E|_]; [contradiction|].
  now destruct step.
Qed.

Lemma oneLine_typeName t : oneLine (typeName t) = true.
Proof. now destruct t. Qed.

Lemma oneLine_join sep lines :
  oneLine sep = true -> Forall (fun l => oneLine l = true) lines ->
  oneLine (join sep lines) = true.
Proof.
  intros Hsep H. induction H as [|l rest Hl Hrest IH]; [reflexivity|].
  destruct rest as [|l' rest']; [exact Hl|].
  change (join sep (l :: l' :: rest')) with (l ++ sep ++ join sep (l' :: rest')).
  now rewrite !oneLine_app, Hl, Hsep, IH.
Qed.

Lemma oneLine_headingOf step :
  oneLine (orEmpty (label step)) = true -> oneLine (headingOf step) = true.
Proof.
  intros Hl. unfold headingOf.
  rewrite !oneLine_app, oneLine_numberToString, oneLine_typeName.
  destruct (label step) as [l|]; [|reflexivity].
  simpl in Hl. destruct (truthy l); [|reflexivity].
  now rewrite oneLine_app, Hl.
Qed.

Lemma isStepHeading_headingOf step : isStepHeading (headingOf step) = true.
Proof. apply startsWith_app. Qed.

Lemma bodyLine_empty : bodyLine [].
Proof. repeat split; try reflexivity; try discriminate. constructor. Qed.

Lemma bodyLine_short s :
  oneLine s = true -> bodyLine (lit "**What this step does:** " ++ s).
Proof.
  intros Hs. repeat split; try reflexivity; try discriminate.
  - now rewrite oneLine_app, Hs.
  - constructor.
Qed.

Lemma bodyLine_detail : bodyLine (lit "**Detail / excerpt:**").
Proof. repeat split; try reflexivity; try discriminate. constructor. Qed.

Lemma bodyLine_quoted line : ~ In 10%N line -> bodyLine (quoted line).
Proof.
  intros Hfree. apply oneLine_spec in Hfree. unfold quoted.
  destruct (blank line).
  - repeat split; try reflexivity; try discriminate. constructor.
  - repeat split; try reflexivity; try discriminate.
    + now rewrite oneLine_app, Hfree.
    + constructor.
Qed.

Lemma bodyLine_tags (ts : list (list N)) :
  Forall (fun t => oneLine t = true) ts ->
  bodyLine (lit "**MRI tags:** " ++ join (lit ", ") (List.map codeSpan ts)).
Proof.
  intros Hts. repeat split; try reflexivity; try discriminate.
  - rewrite oneLine_app. apply andb_true_intro. split; [reflexivity|].
    apply oneLine_join; [reflexivity|].
    apply Forall_map. eapply Forall_impl; [exact Hts|].
    intros t Ht. unfold codeSpan. simpl. now rewrite !oneLine_app, Ht.
  - constructor.
Qed.

Local Ltac body_lines :=
  repeat first
    [ apply List.Forall_nil
    | apply List.Forall_cons;
      [ first [ apply bodyLine_empty
              | apply bodyLine_detail
              | apply bodyLine_short; assumption
              | apply bodyLine_tags; assumption ] | ] ].

(** A section of a step with single-line fields: its heading, a body
    without headings and rules, the closing rule. *)
Lemma stepLines_shape idx step :
  singleLineFields step = true -> sectionOf step (stepLines idx step).
Proof.
  unfold singleLineFields. rewrite !andb_true_iff.
  intros [[Hlabel Hshort] Htags].
  apply forallb_Forall in Htags.
  unfold sectionOf, stepLines.
  cbv zeta.
  match goal with
  | |- context [ [?h; []] ++ ?A ++ ?B ++ ?C ++ [rule] ] =>
      exists h, ([[]] ++ A ++ B ++ C)
  end.
  split; [now rewrite <- !app_assoc|].
  split;
    [|split; [rewrite stepHeader_withStepId; now apply oneLine_headingOf|];
      split; [eexists; apply stepHeader_withStepId | apply stepHeader_headingOf]].
  - repeat apply Forall_app_2.
    + body_lines.
    + destruct (truthy (orEmpty (short step))); body_lines.
    + destruct (truthy (orEmpty (text step))); [|body_lines].
      repeat apply Forall_app_2; [body_lines | | body_lines].
      apply Forall_map.
      eapply Forall_impl; [apply split_pieces_free|].
      intros line Hline. rewrite quoteLine_quoted. now apply bodyLine_quoted.
    + destruct (match tags step with Some ts => ts | None => [] end) as [|t ts] eqn:E;
        body_lines.
Qed.

End Timeline.

Section TimelineDocument.

Implicit Types (step : TimelineStep) (steps : list TimelineStep).

Lemma wellFormed_singleLine step :
  wellFormed step = true -> step_id step <> 0 /\ singleLineFields step = true.
Proof.
  unfold wellFormed. rewrite andb_true_iff, negb_true_iff.
  intros [Hid Hs]. split; [now apply Z.eqb_neq | exact Hs].
Qed.

Lemma sections_shape idx steps :
  Forall (fun step => singleLineFields step = true) steps ->
  Forall2 sectionOf steps (sectionsFrom idx steps).
Proof.
  intros H. revert idx. induction H as [|step rest Hstep _ IH]; intros idx; simpl.
  - constructor.
  - constructor; [now apply stepLines_shape | apply IH].
Qed.

Lemma section_lines_oneLine step (section : list (list N)) :
  sectionOf step section -> Forall (fun l => oneLine l = true) section.
Proof.
  intros (heading & body & -> & Hbody & Hh & _).
  constructor; [exact Hh|]. apply Forall_app_2.
  - eapply Forall_impl; [exact Hbody|]. intros l Hl. apply Hl.
  - repeat constructor.
Qed.

Lemma section_lines_timeline step (section : list (list N)) :
  sectionOf step section -> Forall TimelineLine section.
Proof.
  intros (heading & body & -> & Hbody & _ & [id ->] & _).
  constructor; [constructor|]. apply Forall_app_2.
  - eapply Forall_impl; [exact Hbody|]. intros l Hl. apply Hl.
  - repeat constructor.
Qed.

Lemma section_headings step (section : list (list N)) :
  sectionOf step section -> step_id step <> 0 ->
  List.filter isStepHeading section = [headingOf step].
Proof.
  intros (heading & body & -> & Hbody & _ & _ & Hh) Hid. rewrite (Hh Hid).
  rewrite filter_cons_true by apply isStepHeading_headingOf. f_equal.
  rewrite List.filter_app.
  rewrite filter_cons_false by reflexivity.
  change (List.filter isStepHeading []) with (@nil (list N)). rewrite app_nil_r.
  induction Hbody as [|l body Hl _ IH]; [reflexivity|].
  destruct Hl as [Hl _]. now rewrite filter_cons_false by exact Hl.
Qed.

Lemma Forall_concat {A} (P : A -> Prop) (B : Type) (R : B -> list A -> Prop)
      (xs : list B) (ls : list (list A)) :
  (forall x l, R x l -> Forall P l) -> Forall2 R xs ls -> Forall P (concat ls).
Proof.
  intros HR H. induction H as [|x l xs ls Hxl _ IH]; simpl; [constructor|].
  apply Forall_app_2; [now apply (HR x) | exact IH].
Qed.

Lemma filter_concat_sections steps (sections : list (list (list N))) :
  Forall2 sectionOf steps sections ->
  Forall (fun step => step_id step <> 0) steps ->
  List.filter isStepHeading (concat sections) = List.map headingOf steps.
Proof.
  intros H. induction H as [|step section steps sections Hs _ IH]; [reflexivity|].
  intros Hids. apply Forall_cons_1 in Hids. destruct Hids as [Hid Hids].
  simpl. rewrite List.filter_app, (IH Hids), (section_headings step section Hs Hid).
  reflexivity.
Qed.

(** The lines of the document of steps with single-line fields are the
    preamble and the lines of the sections. *)
Lemma timeline_lines steps :
  steps <> [] -> Forall (fun step => singleLineFields step = true) steps ->
  split 10 (generateTimelineMarkdown (Some steps)) =
  timelinePreamble ++ concat (sectionsFrom 0 steps).
Proof.
  intros Hne Hsl. rewrite generateTimelineMarkdown_sections by exact Hne.
  apply split_join; [discriminate|].
  apply Forall_app_2.
  - repeat constructor; apply oneLine_spec; reflexivity.
  - eapply Forall_impl.
    + eapply Forall_concat; [|exact (sections_shape 0 steps Hsl)].
      intros step section. apply section_lines_oneLine.
    + intros l Hl. now apply oneLine_spec.
Qed.

End TimelineDocument.

(** C2, amended. For every sequence of well-formed steps that is not empty
    (each identifier set, each caption, summary and tag a single line), the
    lines of the timeline markdown are the preamble followed by one section
    per step, in order; a section is the heading of its step (with the step
    identifier and the kind, and the label as a suffix), a body that holds no
    step heading and no rule, and a closing [---] rule, which separates it
    from the next section; so the step headings of the document are exactly
    the headings of the steps, one each. *)
Theorem timeline_one_section_per_step (steps : list TimelineStep) :
  steps <> [] ->
  Forall (fun step => wellFormed step = true) steps ->
  exists sections : list (list (list N)),
    split 10 (generateTimelineMarkdown (Some steps)) = timelinePreamble ++ concat sections
    /\ Forall2 (fun step section =>
                  exists body,
                    section = headingOf step :: body ++ [rule]
                    /\ Forall (fun line => isStepHeading line = false /\ line <> rule) body)
               steps sections
    /\ List.filter isStepHeading (split 10 (generateTimelineMarkdown (Some steps)))
       = List.map headingOf steps.
Proof.
  intros Hne Hwf. exists (sectionsFrom 0 steps).
  assert (Hsl : Forall (fun step => singleLineFields step = true) steps).
  { eapply Forall_impl; [exact Hwf|]. intros s Hs. now apply wellFormed_singleLine. }
  assert (Hids : Forall (fun step => step_id step <> 0) steps).
  { eapply Forall_impl; [exact Hwf|]. intros s Hs. now apply wellFormed_singleLine. }
  pose proof (sections_shape 0 steps Hsl) as Hshape.
  split; [now apply timeline_lines|]. split.
  - clear Hne Hwf Hsl. induction Hshape as [|step section rest sections Hs _ IH];
      [constructor|].
    apply Forall_cons_1 in Hids. destruct Hids as [Hid Hids].
    constructor; [|now apply IH].
    destruct Hs as (heading & body & E & Hbody & _ & _ & Hh).
    exists body. rewrite <- (Hh Hid). split; [exact E|].
    eapply Forall_impl; [exact Hbody|]. intros l (H1 & H2 & _). now split.
  - rewrite timeline_lines by assumption.
    rewrite List.filter_app.
    change (List.filter isStepHeading timelinePreamble) with (@nil (list N)).
    now apply filter_concat_sections.
Qed.

(** C2, as the specification states it, fails.  The step headings of the
    document are not always the headings of the steps, one each: a summary
    of two lines whose second line reads as a heading gives two heading
    lines for one step, also when every identifier is set; and a step
    without identifier (zero) is headed by its position, not by its
    identifier, also when every field is a single line. *)
Lemma timeline_headings_off :
  ~ (forall steps : list TimelineStep,
       steps <> [] ->
       List.filter isStepHeading (split 10 (generateTimelineMarkdown (Some steps)))
       = List.map headingOf steps)
  /\ ~ (forall steps : list TimelineStep,
         steps <> [] ->
         Forall (fun step => step_id step <> 0) steps ->
         length (List.filter isStepHeading
                   (split 10 (generateTimelineMarkdown (Some steps))))
         = length steps)
  /\ ~ (forall steps : list TimelineStep,
         steps <> [] ->
         Forall (fun step => singleLineFields step = true) steps ->
         List.filter isStepHeading (split 10 (generateTimelineMarkdown (Some steps)))
         = List.map headingOf steps).
Proof.
  split; [|split].
  - intros H. specialize (H [twoLineSummaryStep]).
    assert (Hne : [twoLineSummaryStep] <> []) by discriminate.
    specialize (H Hne). vm_compute in H. discriminate.
  - intros H. specialize (H [twoLineSummaryStep]).
    assert (Hne : [twoLineSummaryStep] <> []) by discriminate.
    assert (Hid : Forall (fun step => step_id step <> 0) [twoLineSummaryStep])
      by (repeat constructor; discriminate).
    specialize (H Hne Hid). vm_compute in H. discriminate.
  - intros H. specialize (H [withStepId 0 answerStep]).
    assert (Hne : [withStepId 0 answerStep] <> []) by discriminate.
    assert (Hsl : Forall (fun step => singleLineFields step = true)
                         [withStepId 0 answerStep])
      by (repeat constructor).
    specialize (H Hne Hsl). vm_compute in H. discriminate.
Qed.

(** C8. The generator emits the fixed sentence that no timeline is
    available, a sentence that is not empty, exactly for the empty sequence
    of steps (and for a missing one). *)
Theorem no_timeline_sentence_iff_empty (steps : list TimelineStep) :
  (generateTimelineMarkdown (Some steps) = noTimelineSentence <-> steps = [])
  /\ generateTimelineMarkdown None = noTimelineSentence
  /\ noTimelineSentence <> [].
Proof.
  split; [|split; [reflexivity | discriminate]].
  split; [|now intros ->].
  destruct steps as [|step rest]; [reflexivity|].
  rewrite generateTimelineMarkdown_sections by discriminate.
  unfold timelinePreamble.
  change (join [10%N] (?a :: ?b :: ?l)) with (a ++ [10%N] ++ join [10%N] (b :: l)).
  discriminate.
Qed.

(** C6. For every step of a sequence whose [text] is not empty, the timeline
    markdown holds, as consecutive whole lines after the detail caption, the
    lines of the text in order, each non-blank line behind the prefix of a
    blockquote and each blank line as a bare quote marker. *)
Theorem text_rendered_as_blockquote
        (steps : list TimelineStep) (idx : nat) (step : TimelineStep) (t : list N) :
  steps !! idx = Some step ->
  text step = Some t ->
  t <> [] ->
  exists before after : list N,
    generateTimelineMarkdown (Some steps) =
      before ++ [10%N]
      ++ join [10%N] ([lit "**Detail / excerpt:**"; []]
                      ++ List.map (fun line => if blank line then lit ">" else lit "> " ++ line)
                                  (split 10 t)
                      ++ [[]])
      ++ [10%N] ++ after.
Proof.
  intros Hidx Htext Ht.
  assert (Hne : steps <> []) by (intros ->; discriminate).
  rewrite generateTimelineMarkdown_sections by exact Hne.
  apply list_elem_of_split_length in Hidx.
  destruct Hidx as (pre & post & -> & ->).
  rewrite sectionsFrom_app, concat_app.
  change (sectionsFrom (0 + length pre) (step :: post))
    with (stepLines (0 + length pre) step :: sectionsFrom (S (0 + length pre)) post).
  rewrite concat_cons.
  unfold stepLines at 1. cbv zeta. rewrite Htext.
  change (orEmpty (Some t)) with t.
  replace (truthy t) with true by (now destruct t).
  rewrite (List.map_ext quoteLine quoted quoteLine_quoted).
  fold (quoted).
  match goal with
  | |- context [ ?hd ++ ?sh ++ (?block) ++ ?tg ++ [rule] ] =>
      set (head := hd); set (shortPart := sh); set (tagPart := tg)
  end.
  set (block := [lit "**Detail / excerpt:**"; []] ++ List.map quoted (split 10 t) ++ [[]]).
  set (front := timelinePreamble ++ concat (sectionsFrom 0 pre) ++ head ++ shortPart).
  set (back := tagPart ++ [rule] ++ concat (sectionsFrom (S (0 + length pre)) post)).
  replace (timelinePreamble ++ concat (sectionsFrom 0 pre)
           ++ (head ++ shortPart ++ block ++ tagPart ++ [rule])
           ++ concat (sectionsFrom (S (0 + length pre)) post))
    with (front ++ block ++ back).
  2:{ unfold front, back. now rewrite <- !app_assoc. }
  assert (Hfront : front <> []) by discriminate.
  assert (Hblock : block <> []) by discriminate.
  assert (Hback : back <> []).
  { unfold back. destruct tagPart; discriminate. }
  assert (Hrest : block ++ back <> []) by (destruct block; [congruence | discriminate]).
  rewrite (join_app _ front (block ++ back) Hfront Hrest).
  rewrite (join_app _ block back Hblock Hback).
  exists (join [10%N] front), (join [10%N] back).
  reflexivity.
Qed.

(** ** The markdown subset *)

(** C3, as the specification states it, fails: the section of a step opens
    with a heading of the third level, which the fixed subset does not
    have. *)
Lemma timeline_leaves_subset :
  ~ (forall steps : list TimelineStep,
       Forall (fun line => inSubset line = true)
              (split 10 (generateTimelineMarkdown (Some steps)))).
Proof.
  intros H.
  specialize (H [ {| step_id := 1; type := thought; label := None;
                     short := None; text := None; tags := None |} ]).
  apply forallb_Forall in H. vm_compute in H. discriminate.
Qed.

(** C3, amended. Every line of the timeline markdown of steps whose caption,
    summary and tags are single lines is one of: the title (a heading of the
    second level), the introduction, an empty line, a [---] rule, the heading
    of a step (third level, the kind in a code span), a caption in bold
    followed by the summary, the detail caption in bold, a blockquote line or
    a bare quote marker, the caption of the tags in bold followed by the tags
    in code spans; or, for the empty sequence, the sentence in emphasis that
    no timeline is available. *)
Theorem timeline_lines_are_known (steps : list TimelineStep) :
  Forall (fun step => singleLineFields step = true) steps ->
  Forall TimelineLine (split 10 (generateTimelineMarkdown (Some steps))).
Proof.
  intros Hsl. destruct steps as [|step rest].
  - change (split 10 (generateTimelineMarkdown (Some [])))
      with [noTimelineSentence].
    repeat constructor.
  - rewrite timeline_lines by (discriminate || assumption).
    apply Forall_app_2.
    + repeat constructor.
    + eapply Forall_concat; [|exact (sections_shape 0 _ Hsl)].
      intros s section. apply section_lines_timeline.
Qed.

(** ** The markdown viewer *)

Section Viewer.

Implicit Types (line : list N) (lines : list (list N)).

Lemma renderFrom_lookup lines idx (todo : list (list N)) i :
  renderFrom lines idx todo !! i = renderLine lines (idx + i) <$> todo !! i.
Proof.
  revert idx i. induction todo as [|line rest IH]; intros idx i.
  - reflexivity.
  - destruct i as [|i]; simpl.
    + now rewrite Nat.add_0_r.
    + rewrite IH. now rewrite Nat.add_succ_r.
Qed.

Lemma startsWith_bar line :
  startsWith (lit "|") line = true -> exists rest, line = 124%N :: rest.
Proof.
  destruct line as [|c rest]; [discriminate|].
  change (startsWith (lit "|") (c :: rest)) with (N.eqb 124 c && true).
  rewrite andb_true_r. intros E. apply N.eqb_eq in E. subst c. eauto.
Qed.

Lemma rowCells_not_blank line :
  rowCells line = List.filter (fun c => negb (blank c)) (split 124 line).
Proof.
  unfold rowCells. apply List.filter_ext. intros c. apply truthy_trim.
Qed.

(** A line that starts with a bar reaches the branch of the table rows. *)
Lemma renderLine_bar lines idx line :
  startsWith (lit "|") line = true ->
  renderLine lines idx line =
  if includes (lit "---") line then Null
  else Grid (rowClass match lines !! S idx with
                      | Some next => includes (lit "---") next
                      | None => false
                      end)
            (rowCells line).
Proof.
  intros Hbar. destruct (startsWith_bar line Hbar) as [rest ->].
  unfold renderLine.
  change (startsWith (lit "## ") (124%N :: rest)) with false.
  change (startsWith (lit "# ") (124%N :: rest)) with false.
  change (startsWith (lit "> ") (124%N :: rest)) with false.
  change (startsWith (lit "- ") (124%N :: rest)) with false.
  change (numberedTest (124%N :: rest)) with false.
  rewrite Hbar. cbv iota.
  destruct (trim_head rest 124%N eq_refl) as [t Ht].
  rewrite bool_decide_eq_false_2; [reflexivity|].
  rewrite Ht. discriminate.
Qed.

(** The viewer has no branch for the heading of a step: it renders the
    line, hashes and backticks included, as a paragraph. *)
Lemma step_heading_rendered_as_paragraph lines idx (step : TimelineStep) :
  renderLine lines idx (headingOf step) = Paragraph (renderParts (headingOf step)).
Proof.
  unfold headingOf.
  set (rest := numberToString (step_id step) ++ _).
  change (lit "### Step " ++ rest)
    with (35%N :: 35%N :: 35%N :: 32%N :: lit "Step " ++ rest).
  set (tail := 35%N :: 35%N :: 32%N :: lit "Step " ++ rest).
  unfold renderLine.
  change (startsWith (lit "## ") (35%N :: tail)) with false.
  change (startsWith (lit "# ") (35%N :: tail)) with false.
  change (startsWith (lit "> ") (35%N :: tail)) with false.
  change (startsWith (lit "- ") (35%N :: tail)) with false.
  change (startsWith (lit "|") (35%N :: tail)) with false.
  change (numberedTest (35%N :: tail)) with false.
  cbv iota.
  destruct (trim_head tail 35%N eq_refl) as [t Ht].
  rewrite !bool_decide_eq_false_2; [reflexivity | |]; rewrite Ht; discriminate.
Qed.

End Viewer.

(** C10. In what the viewer renders, a line that starts with a bar and holds
    [---] yields nothing, and every other line that starts with a bar yields
    a row of its cells that are not blank; the class of the row asks for a
    grid of three columns whatever the cells are. *)
Theorem table_rows_rendered (content : list N) (i : nat) (line : list N) :
  split 10 content !! i = Some line ->
  startsWith (lit "|") line = true ->
  MarkdownViewer content !! i =
    Some (if includes (lit "---") line then Null
          else Grid (rowClass match split 10 content !! S i with
                              | Some next => includes (lit "---") next
                              | None => false
                              end)
                    (List.filter (fun c => negb (blank c)) (split 124 line)))
  /\ forall isHeader, startsWith (lit "grid grid-cols-3 ") (rowClass isHeader) = true.
Proof.
  intros Hline Hbar. split; [|intros []; reflexivity].
  unfold MarkdownViewer. cbv zeta.
  rewrite renderFrom_lookup, Hline. simpl fmap.
  rewrite (renderLine_bar _ _ _ Hbar), rowCells_not_blank. reflexivity.
Qed.

(** ** The tabs and the declared shape of the response *)

Lemma declared_shape_has_no_timeline_steps (r : InternRunResponse) :
  readSteps (toObject r) "timeline_steps" = None
  /\ readSteps (toObject r) "steps" = Some (steps r).
Proof.
  unfold readSteps, toObject. split.
  - now rewrite !lookup_insert_ne, lookup_empty by discriminate.
  - rewrite !lookup_insert_ne by discriminate. now rewrite lookup_insert_eq.
Qed.

(** For every response of the declared shape, whatever its [steps] hold, the
    timeline tab shows the message that no trace is available and the log
    view renders the sentence that no timeline is available. *)
Lemma declared_shape_views (r : InternRunResponse) :
  tabContent (Some (toObject r)) 2 = Some (TimelineTabContent (NoTrace noTraceMessage))
  /\ tabContent (Some (toObject r)) 3
     = Some (LogViewTab (MarkdownViewer noTimelineSentence)).
Proof.
  destruct (declared_shape_has_no_timeline_steps r) as [Hnone _].
  unfold tabContent. rewrite Hnone. split; reflexivity.
Qed.

(** The two views show the steps of an object that carries them under the
    name [timeline_steps]. *)
Lemma views_read_timeline_steps (data : gmap string Field) (l : list TimelineStep) :
  data !! "timeline_steps" = Some (FSteps l) ->
  tabContent (Some data) 2 = Some (TimelineTabContent (TimelineTab (Some l)))
  /\ tabContent (Some data) 3
     = Some (LogViewTab (MarkdownViewer (generateTimelineMarkdown (Some l)))).
Proof.
  intros H. unfold tabContent, readSteps. rewrite H. split; reflexivity.
Qed.

(** C1, on the code. The timeline tab and the log view read the property
    [timeline_steps], which the declared shape of the response does not
    have.  The sample response carries two steps in its [steps] field, and
    yet the timeline tab shows the message that no trace is available and
    the log view renders the sentence that no timeline is available, as one
    paragraph; rendering the [steps] field would have shown two cards and a
    document of two sections. *)
Theorem sample_response_steps_not_rendered :
  length (steps sampleResponse) = 2%nat
  /\ tabContent (Some (toObject sampleResponse)) 2
     = Some (TimelineTabContent (NoTrace noTraceMessage))
  /\ tabContent (Some (toObject sampleResponse)) 3
     = Some (LogViewTab [Paragraph [Plain noTimelineSentence]])
  /\ (exists first second,
        TimelineTab (Some (steps sampleResponse)) = Trace [first; second])
  /\ List.filter isStepHeading
       (split 10 (generateTimelineMarkdown (Some (steps sampleResponse))))
     = [headingOf planStep; headingOf answerStep].
Proof.
  destruct (declared_shape_views sampleResponse) as [H2 H3].
  split; [reflexivity|]. split; [exact H2|]. split; [rewrite H3; reflexivity|].
  split; [do 2 eexists; reflexivity|].
  vm_compute. reflexivity.
Qed.

(** ** The embedding on the samples *)

Example sample_timeline_lines :
  split 10 (generateTimelineMarkdown (Some sampleSteps)) =
  [ timelineTitle; []; timelineIntro; lit "---";
    lit "### Step 1: `thought`" ++ labelSeparator ++ lit "plan"; [];
    lit "**What this step does:** Plan the work"; [];
    lit "**Detail / excerpt:**"; [];
    lit "> first line"; lit ">"; lit "> third line"; [];
    lit "**MRI tags:** `apology`"; [];
    lit "---";
    lit "### Step 2: `final_answer`"; [];
    lit "---" ].
Proof. vm_compute. reflexivity. Qed.

(** A step without an identifier is numbered by its position. *)
Example missing_id_takes_position :
  stepHeader 4 (withStepId 0 answerStep) = lit "### Step 5: `final_answer`".
Proof. vm_compute. reflexivity. Qed.

Example sample_cards :
  TimelineTab (Some sampleSteps) =
  Trace [ {| cardIcon := BrainCircuit; cardBubble := lit "bg-slate-50";
             cardStepId := 1; cardType := lit "thought";
             cardLabel := Some (lit "plan");
             cardShort := lit "Plan the work";
             cardChips := [(lit "apology", lowClasses)];
             cardBody := lit "first line" ++ [10%N; 32%N; 10%N] ++ lit "third line";
             cardIsLast := false |};
          {| cardIcon := MessageSquare; cardBubble := lit "bg-emerald-50";
             cardStepId := 2; cardType := lit "final_answer";
             cardLabel := None;
             cardShort := shortPlaceholder;
             cardChips := [];
             cardBody := bodyPlaceholder;
             cardIsLast := true |} ].
Proof. vm_compute. reflexivity. Qed.

Example sample_bold_split :
  renderParts (lit "risk **high** for ***two** runs")
  = [ Plain (lit "risk "); Strong (lit "high"); Plain (lit " for ");
      Strong (lit "*two"); Plain (lit " runs") ].
Proof. vm_compute. reflexivity. Qed.

Example sample_table_rendered :
  MarkdownViewer sampleTable =
  [ Grid (rowClass true) [lit " tag "; lit " count "];
    Null;
    Grid (rowClass false) [lit " a "; lit " b "; lit " c "; lit " d "] ].
Proof. vm_compute. reflexivity. Qed.

Example sample_markdown_rendered :
  MarkdownViewer (lit "# Report" ++ [10%N] ++ lit "## Diagnosis" ++ [10%N]
                  ++ lit "---" ++ [10%N] ++ lit "> quoted" ++ [10%N]
                  ++ lit "- **tool_error** twice" ++ [10%N]
                  ++ lit "2. Retry the call" ++ [10%N] ++ lit ">")
  = [ H2 (lit "Report"); H3 (lit "Diagnosis"); Hr; Quote (lit "quoted");
      Bullet [Plain []; Strong (lit "tool_error"); Plain (lit " twice")];
      Numbered (lit "2") [Plain (lit "Retry the call")];
      Paragraph [Plain (lit ">")] ].
Proof. vm_compute. reflexivity. Qed.

Example sample_score_view :
  MRIScoreTab (summary sampleResponse) (risk sampleResponse) =
  {| pieData := [(lit "Risk", 12); (lit "Safe", 88)];
     pieFill := green;
     shownScore := 12;
     shownLevel := lit "Low";
     shownBadge := lit "bg-green-100 text-green-700";
     shownTotal := 2;
     shownFlagged := 1;
     failureModes := [(lit "apology", 1)] |}.
Proof. vm_compute. reflexivity. Qed.

(** ** Instances *)

Lemma timeline_one_section_per_step_witness :
  sampleSteps <> []
  /\ Forall (fun step => wellFormed step = true) sampleSteps
  /\ List.filter isStepHeading (split 10 (generateTimelineMarkdown (Some sampleSteps)))
     = List.map headingOf sampleSteps.
Proof.
  assert (Hne : sampleSteps <> []) by discriminate.
  assert (Hwf : Forall (fun step => wellFormed step = true) sampleSteps)
    by (repeat constructor).
  split; [exact Hne|]. split; [exact Hwf|].
  destruct (timeline_one_section_per_step sampleSteps Hne Hwf) as (_ & _ & _ & H).
  exact H.
Defined.

Lemma timeline_lines_are_known_witness :
  Forall (fun step => singleLineFields step = true) sampleSteps
  /\ Forall TimelineLine (split 10 (generateTimelineMarkdown (Some sampleSteps))).
Proof.
  assert (Hwf : Forall (fun step => singleLineFields step = true) sampleSteps)
    by (repeat constructor).
  split; [exact Hwf | exact (timeline_lines_are_known sampleSteps Hwf)].
Defined.

Lemma text_rendered_as_blockquote_witness :
  exists before after : list N,
    generateTimelineMarkdown (Some sampleSteps) =
      before ++ [10%N]
      ++ join [10%N] [lit "**Detail / excerpt:**"; []; lit "> first line"; lit ">";
                      lit "> third line"; []]
      ++ [10%N] ++ after.
Proof.
  refine (text_rendered_as_blockquote sampleSteps 0 planStep
            (lit "first line" ++ [10%N; 32%N; 10%N] ++ lit "third line")
            eq_refl eq_refl _).
  discriminate.
Defined.

Lemma table_rows_rendered_witness :
  MarkdownViewer sampleTable !! 1%nat = Some Null
  /\ MarkdownViewer sampleTable !! 2%nat
     = Some (Grid (rowClass false) [lit " a "; lit " b "; lit " c "; lit " d "]).
Proof.
  split.
  - exact (proj1 (table_rows_rendered sampleTable 1 (lit "|---|---|") eq_refl eq_refl)).
  - exact (proj1 (table_rows_rendered sampleTable 2 (lit "| a | b | c | d |")
                    eq_refl eq_refl)).
Defined.

(** * Further properties of the code *)

(** ** The viewer, line by line *)

Section ViewerLines.

Implicit Types (line rest : list N) (lines : list (list N)) (c : N).

Lemma replaceFirst_unfold (pat rep s : list N) :
  replaceFirst pat rep s =
  if startsWith pat s then
    match pat with
    | [] => rep ++ s
    | _ :: _ => rep ++ drop (length pat) s
    end
  else
    match s with
    | [] => []
    | c :: s' => c :: replaceFirst pat rep s'
    end.
Proof. destruct s; reflexivity. Qed.

Lemma replaceFirst_prefix (pat rep s : list N) :
  pat <> [] -> replaceFirst pat rep (pat ++ s) = rep ++ s.
Proof.
  intros Hpat. rewrite replaceFirst_unfold, startsWith_app.
  destruct pat as [|p pat]; [congruence|].
  now rewrite drop_app_length.
Qed.

Lemma startsWith_cons_inv (p : N) (pre : list N) line :
  startsWith (p :: pre) line = true -> exists s, line = p :: s.
Proof.
  destruct line as [|x s]; simpl; [discriminate|].
  intros H. apply andb_true_iff in H. destruct H as [E _].
  apply N.eqb_eq in E. subst. eauto.
Qed.

(** A trimmed string that is not empty starts with the first code unit of
    the string when that is not white space. *)
Lemma trim_cons_ne c (s target : list N) :
  isWhiteSpace c = false ->
  match target with [] => True | t :: _ => t <> c end ->
  trim (c :: s) <> target.
Proof.
  intros Hc Ht. destruct (trim_head s c Hc) as [u ->].
  destruct target as [|t target]; [discriminate|]. congruence.
Qed.

Lemma trimStart_snoc_cases (l : list N) c :
  trimStart (l ++ [c]) = [] \/ exists u, trimStart (l ++ [c]) = u ++ [c].
Proof.
  induction l as [|d l IH]; simpl.
  - destruct (isWhiteSpace c); [now left | right; now exists []].
  - destruct (isWhiteSpace d); [exact IH | right].
    now exists (d :: l).
Qed.

(** After a first code unit that is not white space, the trimmed string
    either ends there or goes on with the second code unit of the string. *)
Lemma trim_second c d (s : list N) :
  isWhiteSpace c = false ->
  trim (c :: d :: s) = [c] \/ exists u, trim (c :: d :: s) = c :: d :: u.
Proof.
  intros Hc. unfold trim, trimEnd. rewrite trimStart_head by exact Hc.
  change (rev (c :: d :: s)) with ((rev s ++ [d]) ++ [c]).
  rewrite trimStart_snoc by exact Hc.
  rewrite rev_app_distr. simpl rev at 1. simpl app.
  destruct (trimStart_snoc_cases (rev s) d) as [-> | [u ->]].
  - now left.
  - right. rewrite rev_app_distr. simpl. eauto.
Qed.

Lemma digit_not_space c : isDigit c = true -> isWhiteSpace c = false.
Proof.
  unfold isDigit. rewrite andb_true_iff, !N.leb_le. intros [Hlo Hhi].
  unfold isWhiteSpace, isLineTerminator.
  repeat match goal with
         | |- context [N.eqb c ?k] =>
             destruct (N.eqb_spec c k); [lia|]
         end.
  destruct (N.leb_spec 8192 c); [lia|]. reflexivity.
Qed.

Lemma digit_neq c k :
  isDigit c = true -> (k < 48 \/ 57 < k)%N -> N.eqb k c = false.
Proof.
  unfold isDigit. rewrite andb_true_iff, !N.leb_le. intros [Hlo Hhi] Hk.
  apply N.eqb_neq. lia.
Qed.

Lemma space_neq c k :
  isWhiteSpace c = true -> isWhiteSpace k = false -> N.eqb k c = false.
Proof.
  intros Hc Hk. apply N.eqb_neq. intros ->. congruence.
Qed.

Lemma space_not_digit c : isWhiteSpace c = true -> isDigit c = false.
Proof.
  intros Hc. destruct (isDigit c) eqn:Hd; [|reflexivity].
  apply digit_not_space in Hd. congruence.
Qed.

(** A line whose first code unit opens no construct is a paragraph. *)
Lemma renderLine_plain lines idx c (s : list N) :
  plainHead c = true ->
  renderLine lines idx (c :: s) = Paragraph (renderParts (c :: s)).
Proof.
  unfold plainHead. rewrite !andb_true_iff, !negb_true_iff.
  intros [[[[[Hws Hdig] H35] H62] H45] H124].
  unfold renderLine.
  change (startsWith (lit "## ") (c :: s)) with (N.eqb 35 c && startsWith (lit "# ") s).
  change (startsWith (lit "# ") (c :: s)) with (N.eqb 35 c && startsWith (lit " ") s).
  change (startsWith (lit "> ") (c :: s)) with (N.eqb 62 c && startsWith (lit " ") s).
  change (startsWith (lit "- ") (c :: s)) with (N.eqb 45 c && startsWith (lit " ") s).
  change (startsWith (lit "|") (c :: s)) with (N.eqb 124 c && startsWith [] s).
  change (numberedTest (c :: s))
    with (isDigit c && match dropDigits s with d :: _ => N.eqb d 46 | [] => false end).
  rewrite (N.eqb_sym 35 c), (N.eqb_sym 62 c), (N.eqb_sym 45 c), (N.eqb_sym 124 c).
  rewrite H35, H62, H45, H124, Hdig. cbn [andb].
  rewrite !bool_decide_eq_false_2; [reflexivity | |].
  - apply trim_cons_ne; [exact Hws | exact I].
  - apply trim_cons_ne; [exact Hws|]. change (45%N <> c).
    apply N.eqb_neq in H45. congruence.
Qed.

End ViewerLines.

Section ViewerBranches.

Implicit Types (line rest : list N) (lines : list (list N)) (c : N).

Lemma renderLine_h3 lines idx rest :
  renderLine lines idx (lit "## " ++ rest) = H3 rest.
Proof.
  unfold renderLine. rewrite startsWith_app.
  now rewrite replaceFirst_prefix by discriminate.
Qed.

Lemma renderLine_h2 lines idx rest :
  renderLine lines idx (lit "# " ++ rest) = H2 rest.
Proof.
  unfold renderLine.
  change (startsWith (lit "## ") (lit "# " ++ rest)) with false.
  cbv iota. rewrite startsWith_app.
  now rewrite replaceFirst_prefix by discriminate.
Qed.

Lemma renderLine_quote lines idx rest :
  renderLine lines idx (lit "> " ++ rest) = Quote rest.
Proof.
  unfold renderLine.
  change (startsWith (lit "## ") (lit "> " ++ rest)) with false.
  change (startsWith (lit "# ") (lit "> " ++ rest)) with false.
  cbv iota. rewrite startsWith_app.
  rewrite bool_decide_eq_false_2.
  - now rewrite replaceFirst_prefix by discriminate.
  - change (lit "> " ++ rest) with (62%N :: 32%N :: rest).
    apply trim_cons_ne; [reflexivity | discriminate].
Qed.

Lemma renderLine_bullet lines idx rest :
  renderLine lines idx (lit "- " ++ rest) = Bullet (renderParts rest).
Proof.
  unfold renderLine.
  change (startsWith (lit "## ") (lit "- " ++ rest)) with false.
  change (startsWith (lit "# ") (lit "- " ++ rest)) with false.
  change (startsWith (lit "> ") (lit "- " ++ rest)) with false.
  cbv iota. rewrite startsWith_app.
  rewrite bool_decide_eq_false_2.
  - now rewrite replaceFirst_prefix by discriminate.
  - change (lit "- " ++ rest) with (45%N :: 32%N :: rest).
    destruct (trim_second 45 32 rest eq_refl) as [-> | [u ->]]; discriminate.
Qed.

Lemma renderLine_rule lines idx line :
  trim line = lit "---" -> renderLine lines idx line = Hr.
Proof.
  intros Ht. unfold renderLine.
  destruct (startsWith (lit "## ") line) eqn:E1.
  { apply startsWith_cons_inv in E1. destruct E1 as [s ->].
    exfalso. revert Ht. apply trim_cons_ne; [reflexivity | discriminate]. }
  destruct (startsWith (lit "# ") line) eqn:E2.
  { apply startsWith_cons_inv in E2. destruct E2 as [s ->].
    exfalso. revert Ht. apply trim_cons_ne; [reflexivity | discriminate]. }
  now rewrite bool_decide_eq_true_2.
Qed.

Lemma renderLine_blank lines idx line :
  blank line = true -> renderLine lines idx line = Spacer.
Proof.
  intros Hb. pose proof (proj2 (trim_nil_iff line) Hb) as Ht.
  destruct line as [|c s]; [reflexivity|].
  simpl in Hb. apply andb_true_iff in Hb. destruct Hb as [Hc _].
  unfold renderLine.
  change (startsWith (lit "## ") (c :: s)) with (N.eqb 35 c && startsWith (lit "# ") s).
  change (startsWith (lit "# ") (c :: s)) with (N.eqb 35 c && startsWith (lit " ") s).
  change (startsWith (lit "> ") (c :: s)) with (N.eqb 62 c && startsWith (lit " ") s).
  change (startsWith (lit "- ") (c :: s)) with (N.eqb 45 c && startsWith (lit " ") s).
  change (startsWith (lit "|") (c :: s)) with (N.eqb 124 c && startsWith [] s).
  change (numberedTest (c :: s))
    with (isDigit c && match dropDigits s with d :: _ => N.eqb d 46 | [] => false end).
  rewrite (space_neq c 35 Hc eq_refl), (space_neq c 62 Hc eq_refl),
    (space_neq c 45 Hc eq_refl), (space_neq c 124 Hc eq_refl),
    (space_not_digit c Hc).
  cbn [andb]. rewrite Ht.
  now rewrite bool_decide_eq_false_2 by discriminate.
Qed.

Local Ltac branches :=
  unfold renderLine;
  repeat match goal with
         | |- context [if ?b then _ else _] => destruct b eqn:?
         | |- context [match split ?k ?l with _ => _ end] => destruct (split k l)
         end.

Lemma renderLine_rule_inv lines idx line :
  renderLine lines idx line = Hr -> trim line = lit "---".
Proof.
  branches; try discriminate. intros _.
  match goal with H : bool_decide _ = true |- _ => now apply bool_decide_eq_true in H end.
Qed.

Lemma renderLine_blank_inv lines idx line :
  renderLine lines idx line = Spacer -> blank line = true.
Proof.
  branches; try discriminate. intros _. apply trim_nil_iff.
  match goal with
  | H : bool_decide (trim line = []) = true |- _ => now apply bool_decide_eq_true in H
  end.
Qed.

End ViewerBranches.

(** X1. A line that starts with two hashes and a space renders as the
    smaller heading and a line that starts with one hash and a space as the
    larger one, in both cases over the rest of the line exactly: the marker
    is removed once, at the front, whatever the rest holds. *)
Theorem heading_lines_rendered (lines : list (list N)) (idx : nat) (rest : list N) :
  renderLine lines idx (lit "## " ++ rest) = H3 rest
  /\ renderLine lines idx (lit "# " ++ rest) = H2 rest.
Proof. split; [apply renderLine_h3 | apply renderLine_h2]. Qed.

(** X2. A line renders as a horizontal rule exactly when it is three dashes
    once the white space around it is trimmed. *)
Theorem rule_lines_rendered (lines : list (list N)) (idx : nat) (line : list N) :
  renderLine lines idx line = Hr <-> trim line = lit "---".
Proof. split; [apply renderLine_rule_inv | apply renderLine_rule]. Qed.

(** X3. A line renders as the spacer exactly when it is blank: empty, or
    white space only. *)
Theorem blank_lines_rendered (lines : list (list N)) (idx : nat) (line : list N) :
  renderLine lines idx line = Spacer <-> blank line = true.
Proof. split; [apply renderLine_blank_inv | apply renderLine_blank]. Qed.

(** X4. A line that starts with the quote marker renders as a quote of the
    rest of the line, and a line that starts with the bullet marker as a
    bullet over the parts of the rest of the line; neither is ever taken for
    a rule. *)
Theorem quote_and_bullet_lines_rendered
        (lines : list (list N)) (idx : nat) (rest : list N) :
  renderLine lines idx (lit "> " ++ rest) = Quote rest
  /\ renderLine lines idx (lit "- " ++ rest) = Bullet (renderParts rest).
Proof. split; [apply renderLine_quote | apply renderLine_bullet]. Qed.

(** ** Numbered lines and bold spans *)

Section NumberedAndBold.

Implicit Types (s rest inner : list N) (c : N).

Lemma join_split c s : join [c] (split c s) = s.
Proof.
  induction s as [|d s IH]; [reflexivity|].
  simpl split. destruct (N.eqb_spec d c) as [->|Hne].
  - pose proof (split_not_nil c s) as Hs.
    destruct (split c s) as [|p ps] eqn:E; [congruence|].
    change (join [c] ([] :: p :: ps)) with ([] ++ [c] ++ join [c] (p :: ps)).
    now rewrite IH.
  - pose proof (split_not_nil c s) as Hs.
    destruct (split c s) as [|p ps] eqn:E; [congruence|].
    destruct ps as [|q ps].
    + simpl in *. now subst.
    + change (join [c] ((d :: p) :: q :: ps)) with (d :: (p ++ [c] ++ join [c] (q :: ps))).
      change (join [c] (p :: q :: ps)) with (p ++ [c] ++ join [c] (q :: ps)) in IH.
      now rewrite IH.
Qed.

Lemma dropDigits_app (ds : list N) rest :
  Forall (fun d => isDigit d = true) ds ->
  dropDigits (ds ++ 46%N :: rest) = 46%N :: rest.
Proof.
  intros H. induction H as [|d ds Hd _ IH]; [reflexivity|].
  simpl. now rewrite Hd.
Qed.

Lemma digits_no_dot (ds : list N) :
  Forall (fun d => isDigit d = true) ds -> ~ In 46%N ds.
Proof.
  intros H Hin. apply List.Forall_forall with (x := 46%N) in H; [discriminate | exact Hin].
Qed.

Lemma renderLine_numbered (lines : list (list N)) idx (d : N) (ds : list N) rest :
  Forall (fun x => isDigit x = true) (d :: ds) ->
  renderLine lines idx ((d :: ds) ++ 46%N :: rest)
  = Numbered (d :: ds) (renderParts (trim rest)).
Proof.
  intros Hds. pose proof Hds as Hall. apply Forall_cons_1 in Hds. destruct Hds as [Hd Hrest].
  unfold renderLine.
  change ((d :: ds) ++ 46%N :: rest) with (d :: (ds ++ 46%N :: rest)).
  set (s := ds ++ 46%N :: rest).
  change (startsWith (lit "## ") (d :: s)) with (N.eqb 35 d && startsWith (lit "# ") s).
  change (startsWith (lit "# ") (d :: s)) with (N.eqb 35 d && startsWith (lit " ") s).
  change (startsWith (lit "> ") (d :: s)) with (N.eqb 62 d && startsWith (lit " ") s).
  change (startsWith (lit "- ") (d :: s)) with (N.eqb 45 d && startsWith (lit " ") s).
  change (numberedTest (d :: s))
    with (isDigit d && match dropDigits s with x :: _ => N.eqb x 46 | [] => false end).
  rewrite (digit_neq d 35 Hd), (digit_neq d 62 Hd), (digit_neq d 45 Hd) by lia.
  cbn [andb]. rewrite Hd. subst s. rewrite (dropDigits_app ds rest Hrest).
  rewrite N.eqb_refl. cbn [andb].
  rewrite bool_decide_eq_false_2.
  - change (d :: ds ++ 46%N :: rest) with ((d :: ds) ++ 46%N :: rest).
    rewrite split_app_sep by (now apply digits_no_dot).
    change (lit ".") with [46%N]. now rewrite join_split.
  - apply trim_cons_ne; [now apply digit_not_space|].
    change (45%N <> d). intros <-. discriminate.
Qed.

(** What [closeBold] finds is in the string: the run it skips, the two
    closing stars and the rest. *)
Lemma closeBold_sound s inner rest :
  closeBold s = Some (inner, rest) -> s = inner ++ [star; star] ++ rest.
Proof.
  revert inner. induction s as [|c s IH]; intros inner; [discriminate|].
  simpl. destruct s as [|c' s'].
  - destruct (isLineTerminator c); discriminate.
  - destruct (N.eqb c star && N.eqb c' star) eqn:E.
    + apply andb_true_iff in E. destruct E as [E1 E2].
      apply N.eqb_eq in E1, E2. subst. intros [= <- <-]. reflexivity.
    + destruct (isLineTerminator c); [discriminate|].
      destruct (closeBold (c' :: s')) as [[inner' rest']|] eqn:Ec; [|discriminate].
      intros [= <- <-]. now rewrite (IH inner' eq_refl).
Qed.

Lemma closeBold_shorter s inner rest :
  closeBold s = Some (inner, rest) -> (length rest < length s)%nat.
Proof.
  intros H. apply closeBold_sound in H. subst.
  rewrite !length_app. simpl. lia.
Qed.

Lemma boldSplitFrom_concat fuel (seen s : list N) :
  concat (boldSplitFrom fuel seen s) = rev seen ++ s.
Proof.
  revert seen s. induction fuel as [|fuel IH]; intros seen s; simpl.
  - now rewrite app_nil_r.
  - destruct s as [|c s]; [simpl; now rewrite !app_nil_r|].
    destruct s as [|c' after].
    + rewrite IH. simpl. now rewrite <- app_assoc.
    + destruct (N.eqb c star && N.eqb c' star) eqn:E.
      * destruct (closeBold after) as [[inner rest]|] eqn:Ec.
        -- apply andb_true_iff in E. destruct E as [E1 E2].
           apply N.eqb_eq in E1, E2. subst c c'.
           apply closeBold_sound in Ec. subst after.
           simpl concat. rewrite IH. simpl. now rewrite <- !app_assoc.
        -- rewrite IH. simpl. now rewrite <- app_assoc.
      * rewrite IH. simpl. now rewrite <- app_assoc.
Qed.

(** More fuel than the string is long is as good as any. *)
Lemma boldSplitFrom_fuel fuel fuel' (seen s : list N) :
  (length s < fuel)%nat -> (length s < fuel')%nat ->
  boldSplitFrom fuel seen s = boldSplitFrom fuel' seen s.
Proof.
  revert fuel' seen s. induction fuel as [|fuel IH]; intros fuel' seen s Hf Hf'; [lia|].
  destruct fuel' as [|fuel']; [lia|].
  destruct s as [|c s]; [reflexivity|].
  simpl in Hf, Hf'. simpl.
  destruct s as [|c' after].
  - apply IH; simpl; lia.
  - destruct (N.eqb c star && N.eqb c' star).
    + destruct (closeBold after) as [[inner rest]|] eqn:Ec.
      * apply closeBold_shorter in Ec. do 2 f_equal. apply IH; simpl in *; lia.
      * apply IH; simpl in *; lia.
    + apply IH; simpl in *; lia.
Qed.

Lemma includes_cons_false (pat : list N) c s :
  includes pat (c :: s) = false -> startsWith pat (c :: s) = false /\ includes pat s = false.
Proof. simpl. intros H. now apply orb_false_iff in H. Qed.

Lemma boldSplitFrom_plain fuel (seen s : list N) :
  includes [star; star] s = false -> boldSplitFrom fuel seen s = [rev seen ++ s].
Proof.
  revert seen s. induction fuel as [|fuel IH]; intros seen s Hs; [reflexivity|].
  destruct s as [|c s]; [cbn [boldSplitFrom]; now rewrite app_nil_r|].
  apply includes_cons_false in Hs. destruct Hs as [Hst Hinc].
  cbn [boldSplitFrom]. destruct s as [|c' after].
  - rewrite IH by exact Hinc. cbn [rev]. now rewrite <- app_assoc.
  - destruct (N.eqb c star && N.eqb c' star) eqn:E.
    + apply andb_true_iff in E. destruct E as [E1 E2].
      apply N.eqb_eq in E1, E2. subst c c'. discriminate.
    + rewrite IH by exact Hinc. cbn [rev]. now rewrite <- app_assoc.
Qed.

End NumberedAndBold.

(** X5. A line that opens with digits and a dot renders as a numbered item:
    the number is the digits, and the text is everything after the first
    dot, trimmed, with its own dots kept. *)
Theorem numbered_lines_rendered
        (lines : list (list N)) (idx : nat) (number rest : list N) :
  number <> [] ->
  Forall (fun d => isDigit d = true) number ->
  renderLine lines idx (number ++ [46%N] ++ rest)
  = Numbered number (renderParts (trim rest)).
Proof.
  intros Hne Hds. destruct number as [|d ds]; [congruence|].
  now apply renderLine_numbered.
Qed.

(** X6. Splitting a text at its bold spans loses nothing: the parts, in
    order, concatenate to the text. *)
Theorem bold_split_keeps_text (s : list N) : concat (boldSplit s) = s.
Proof. unfold boldSplit. now rewrite boldSplitFrom_concat. Qed.

(** X7. A text that holds no two stars in a row renders as one plain part,
    itself. *)
Theorem text_without_stars_is_plain (s : list N) :
  includes [star; star] s = false -> renderParts s = [Plain s].
Proof.
  intros Hs. unfold renderParts, boldSplit.
  rewrite boldSplitFrom_plain by exact Hs. simpl. unfold renderPart.
  destruct s as [|c s]; [reflexivity|].
  apply includes_cons_false in Hs. destruct Hs as [-> _]. reflexivity.
Qed.

Section BoldSpan.

Implicit Types (a b c s : list N).

Lemma not_star_eqb (x : N) (l : list N) : ~ In star (x :: l) -> N.eqb x star = false.
Proof. intros H. apply N.eqb_neq. intros ->. apply H. now left. Qed.

Lemma closeBold_plain b c :
  ~ In star b -> hasLineTerminator b = false ->
  closeBold (b ++ [star; star] ++ c) = Some (b, c).
Proof.
  induction b as [|x b IH]; intros Hstar Hlt.
  - reflexivity.
  - pose proof (not_star_eqb x b Hstar) as Hx.
    unfold hasLineTerminator in Hlt. simpl in Hlt.
    apply orb_false_iff in Hlt. destruct Hlt as [Hxlt Hblt].
    change ((x :: b) ++ [star; star] ++ c) with (x :: (b ++ [star; star] ++ c)).
    cbn [closeBold].
    destruct (b ++ [star; star] ++ c) as [|c' rest] eqn:E.
    + destruct b; discriminate.
    + rewrite Hx. cbn [andb]. rewrite Hxlt.
      rewrite IH; [reflexivity | | exact Hblt].
      intros Hin. apply Hstar. now right.
Qed.

Lemma boldSplitFrom_skip fuel (seen a s : list N) :
  ~ In star a ->
  boldSplitFrom (length a + fuel) seen (a ++ s) = boldSplitFrom fuel (rev a ++ seen) s.
Proof.
  revert seen. induction a as [|x a IH]; intros seen Hstar; [reflexivity|].
  pose proof (not_star_eqb x a Hstar) as Hx.
  change (length (x :: a) + fuel)%nat with (S (length a + fuel)).
  change ((x :: a) ++ s) with (x :: (a ++ s)).
  cbn [boldSplitFrom].
  assert (Hnone : match a ++ s with
                  | c' :: after =>
                      if N.eqb x star && N.eqb c' star then closeBold after else None
                  | [] => None
                  end = None).
  { destruct (a ++ s); [reflexivity|]. now rewrite Hx. }
  rewrite Hnone. rewrite IH by (intros Hin; apply Hstar; now right).
  cbn [rev]. now rewrite <- app_assoc.
Qed.

Lemma stripStars_tail b : ~ In star b -> stripStars (b ++ [star; star]) = b.
Proof.
  induction b as [|x b IH]; intros Hstar; [reflexivity|].
  pose proof (not_star_eqb x b Hstar) as Hx.
  change ((x :: b) ++ [star; star]) with (x :: (b ++ [star; star])).
  cbn [stripStars].
  destruct (b ++ [star; star]) as [|c' rest] eqn:E.
  - destruct b; discriminate.
  - rewrite Hx. cbn [andb]. f_equal. apply IH. intros Hin. apply Hstar. now right.
Qed.

Lemma boldSplit_span a b c :
  ~ In star a -> ~ In star b -> hasLineTerminator b = false ->
  boldSplit (a ++ [star; star] ++ b ++ [star; star] ++ c)
  = a :: ([star; star] ++ b ++ [star; star]) :: boldSplit c.
Proof.
  intros Ha Hb Hlt. unfold boldSplit.
  set (tail := boldSplitFrom (S (length c)) [] c).
  replace (S (length (a ++ [star; star] ++ b ++ [star; star] ++ c)))
    with (length a + S (S (S (S (S (length b + length c))))))%nat
    by (rewrite !length_app; simpl; lia).
  rewrite boldSplitFrom_skip by exact Ha.
  change ([star; star] ++ b ++ [star; star] ++ c)
    with (star :: star :: (b ++ [star; star] ++ c)).
  remember (S (S (S (S (length b + length c))))) as fuel eqn:Hfuel.
  cbn [boldSplitFrom]. rewrite N.eqb_refl. cbn [andb].
  rewrite (closeBold_plain b c Hb Hlt).
  rewrite app_nil_r, rev_involutive. do 2 f_equal.
  subst tail. apply boldSplitFrom_fuel; lia.
Qed.

End BoldSpan.

(** X8. A bold span renders in bold between what is around it: when the
    text before the span and the text in it hold no star, and the text in
    it no line terminator, the parts are the text before, plain, the text
    of the span, in bold and without its stars, and then the parts of what
    follows. *)
Theorem bold_span_rendered (a b c : list N) :
  ~ In star a -> ~ In star b -> hasLineTerminator b = false ->
  renderParts (a ++ [star; star] ++ b ++ [star; star] ++ c)
  = Plain a :: Strong b :: renderParts c.
Proof.
  intros Ha Hb Hlt. unfold renderParts.
  rewrite (boldSplit_span a b c Ha Hb Hlt).
  change (List.map renderPart (?x :: ?y :: ?l))
    with (renderPart x :: renderPart y :: List.map renderPart l).
  f_equal; [|f_equal].
  - unfold renderPart. destruct a as [|x a]; [reflexivity|].
    change (startsWith [star; star] (x :: a)) with (N.eqb star x && startsWith [star] a).
    rewrite N.eqb_sym, (not_star_eqb x a Ha). reflexivity.
  - unfold renderPart. rewrite startsWith_app.
    change (stripStars ([star; star] ++ b ++ [star; star]))
      with (stripStars (b ++ [star; star])).
    now rewrite stripStars_tail.
Qed.

(** ** The log view: the generator under the viewer *)

Section LogView.

Implicit Types (line : list N) (lines : list (list N)).
Implicit Types (step : TimelineStep) (steps : list TimelineStep).

Lemma renderLine_plain_line lines idx line :
  match line with c :: _ => plainHead c | [] => false end = true ->
  renderLine lines idx line = Paragraph (renderParts line).
Proof.
  destruct line as [|c s]; [discriminate|]. apply renderLine_plain.
Qed.

Lemma renderLine_quoteLine lines idx line :
  renderLine lines idx (quoteLine line)
  = if blank line then Paragraph [Plain (lit ">")] else Quote line.
Proof.
  rewrite quoteLine_quoted. unfold quoted. destruct (blank line).
  - reflexivity.
  - apply renderLine_quote.
Qed.

(** What the viewer makes of a line of the generator, and that only the
    rule becomes a rule. *)
Lemma timeline_line_rendered lines idx line :
  TimelineLine line ->
  logViewNode (renderLine lines idx line) = true
  /\ isHr (renderLine lines idx line) = bool_decide (line = rule).
Proof.
  intros H. destruct H.
  - unfold timelineTitle. rewrite renderLine_h3. split; reflexivity.
  - rewrite renderLine_plain_line by reflexivity. split; reflexivity.
  - rewrite renderLine_blank by reflexivity. split; reflexivity.
  - rewrite renderLine_rule by reflexivity. split; reflexivity.
  - rewrite step_heading_rendered_as_paragraph. split; [reflexivity|].
    symmetry. apply bool_decide_eq_false_2. discriminate.
  - rewrite renderLine_plain_line by reflexivity. split; [reflexivity|].
    symmetry. apply bool_decide_eq_false_2. discriminate.
  - rewrite renderLine_plain_line by reflexivity. split; reflexivity.
  - rewrite renderLine_quote. split; [reflexivity|].
    symmetry. apply bool_decide_eq_false_2. discriminate.
  - split; reflexivity.
  - rewrite renderLine_plain_line by reflexivity. split; [reflexivity|].
    symmetry. apply bool_decide_eq_false_2. discriminate.
  - rewrite renderLine_plain_line by reflexivity. split; reflexivity.
Qed.

Lemma renderFrom_timeline lines idx (todo : list (list N)) :
  Forall TimelineLine todo ->
  Forall (fun node => logViewNode node = true) (renderFrom lines idx todo)
  /\ length (List.filter isHr (renderFrom lines idx todo))
     = length (List.filter (fun l => bool_decide (l = rule)) todo).
Proof.
  intros H. revert idx. induction H as [|line rest Hline _ IH]; intros idx.
  - split; [constructor | reflexivity].
  - destruct (timeline_line_rendered lines idx line Hline) as [Hnode Hhr].
    destruct (IH (S idx)) as [IH1 IH2].
    split; [now constructor|].
    cbn [renderFrom List.filter]. rewrite Hhr.
    destruct (bool_decide (line = rule)); simpl; now rewrite IH2.
Qed.

Lemma section_rules step (section : list (list N)) :
  sectionOf step section ->
  length (List.filter (fun l => bool_decide (l = rule)) section) = 1%nat.
Proof.
  intros (heading & body & -> & Hbody & _ & [id ->] & _).
  rewrite filter_cons_false by (apply bool_decide_eq_false_2; discriminate).
  rewrite List.filter_app, length_app.
  replace (List.filter (fun l => bool_decide (l = rule)) body) with (@nil (list N)).
  - reflexivity.
  - symmetry. induction Hbody as [|l body Hl _ IH]; [reflexivity|].
    destruct Hl as (_ & Hne & _).
    now rewrite filter_cons_false by (now apply bool_decide_eq_false_2).
Qed.

Lemma sections_rules steps (sections : list (list (list N))) :
  Forall2 sectionOf steps sections ->
  length (List.filter (fun l => bool_decide (l = rule)) (concat sections))
  = length steps.
Proof.
  intros H. induction H as [|step section steps sections Hs _ IH]; [reflexivity|].
  simpl concat. rewrite List.filter_app, length_app, IH, (section_rules step section Hs).
  reflexivity.
Qed.

Lemma stepLines_head idx step :
  exists rest, stepLines idx step = stepHeader idx step :: rest.
Proof. unfold stepLines. eexists. reflexivity. Qed.

Lemma sections_headers idx steps :
  Forall (fun step => singleLineFields step = true) steps ->
  List.filter isStepHeading (concat (sectionsFrom idx steps)) = headersFrom idx steps.
Proof.
  intros H. revert idx. induction H as [|step rest Hstep _ IH]; intros idx; [reflexivity|].
  cbn [sectionsFrom headersFrom concat]. rewrite List.filter_app, IH. f_equal.
  destruct (stepLines_shape idx step Hstep) as (heading & body & E & Hbody & _ & [id Hid] & _).
  destruct (stepLines_head idx step) as [tl Etl].
  assert (Hh : heading = stepHeader idx step) by congruence.
  rewrite E, Hh.
  rewrite filter_cons_true
    by (rewrite <- Hh, Hid; apply isStepHeading_headingOf).
  f_equal. rewrite List.filter_app.
  rewrite filter_cons_false by reflexivity.
  change (List.filter isStepHeading []) with (@nil (list N)). rewrite app_nil_r.
  clear E. induction Hbody as [|l body Hl _ IHb]; [reflexivity|].
  destruct Hl as [Hl _]. now rewrite filter_cons_false by exact Hl.
Qed.

Lemma headersFrom_lookup idx steps i :
  headersFrom idx steps !! i = stepHeader (idx + i) <$> steps !! i.
Proof.
  revert idx i. induction steps as [|step rest IH]; intros idx i; [reflexivity|].
  destruct i as [|i]; simpl.
  - now rewrite Nat.add_0_r.
  - rewrite IH. now rewrite Nat.add_succ_r.
Qed.

End LogView.

(** X9. The step headings of the timeline markdown, for steps whose fields
    are single lines, are one per step in order; the heading at position i
    carries the identifier of its step, or i + 1 when that identifier is
    missing (zero), so a step without identifier is numbered by its place. *)
Theorem step_headings_numbered (steps : list TimelineStep) :
  steps <> [] ->
  Forall (fun step => singleLineFields step = true) steps ->
  List.filter isStepHeading (split 10 (generateTimelineMarkdown (Some steps)))
  = headersFrom 0 steps
  /\ length (headersFrom 0 steps) = length steps
  /\ forall (i : nat) (step : TimelineStep),
       steps !! i = Some step ->
       headersFrom 0 steps !! i
       = Some (headingOf (withStepId (if Z.eqb (step_id step) 0
                                      then Z.of_nat i + 1
                                      else step_id step) step)).
Proof.
  intros Hne Hsl. split; [|split].
  - rewrite timeline_lines by assumption.
    rewrite List.filter_app.
    change (List.filter isStepHeading timelinePreamble) with (@nil (list N)).
    now apply sections_headers.
  - clear. generalize 0%nat. induction steps as [|s rest IH]; intros n; simpl;
      [reflexivity | now rewrite IH].
  - intros i step Hi. rewrite headersFrom_lookup, Hi. simpl.
    now rewrite stepHeader_withStepId.
Qed.

(** X10. In the log view a line of the text of a step that is not blank
    shows as a quote of that line, and a blank one shows as a paragraph that
    holds the bare quote marker. *)
Theorem quoted_text_in_log_view (lines : list (list N)) (idx : nat) (line : list N) :
  renderLine lines idx (quoteLine line)
  = if blank line then Paragraph [Plain (lit ">")] else Quote line.
Proof. apply renderLine_quoteLine. Qed.

(** X11. The log view of a sequence of steps with single-line fields that is
    not empty is made of the title heading, paragraphs, spacers, rules and
    quotes only (no list item, no table row, no larger heading), and it has
    one rule more than there are steps: the rule under the introduction and
    the rule that closes each section. *)
Theorem log_view_nodes (steps : list TimelineStep) :
  steps <> [] ->
  Forall (fun step => singleLineFields step = true) steps ->
  let nodes := MarkdownViewer (generateTimelineMarkdown (Some steps)) in
  Forall (fun node => logViewNode node = true) nodes
  /\ length (List.filter isHr nodes) = S (length steps).
Proof.
  intros Hne Hsl. cbv zeta. unfold MarkdownViewer.
  rewrite timeline_lines by assumption.
  pose proof (sections_shape 0 steps Hsl) as Hshape.
  assert (Hlines : Forall TimelineLine (timelinePreamble ++ concat (sectionsFrom 0 steps))).
  { apply Forall_app_2; [repeat constructor|].
    eapply Forall_concat; [|exact Hshape].
    intros s section. apply section_lines_timeline. }
  destruct (renderFrom_timeline (timelinePreamble ++ concat (sectionsFrom 0 steps)) 0 _ Hlines)
    as [Hnodes Hcount].
  split; [exact Hnodes|].
  rewrite Hcount, List.filter_app, length_app, (sections_rules steps _ Hshape).
  reflexivity.
Qed.

(** ** The cards of the timeline tab *)

Section Cards.

Implicit Types (step : TimelineStep) (steps : list TimelineStep).

Lemma cardsFrom_lookup index n steps i :
  cardsFrom index n steps !! i
  = (fun step => StepCard step (Nat.eqb (index + i) (n - 1))) <$> steps !! i.
Proof.
  revert index i. induction steps as [|step rest IH]; intros index i; [reflexivity|].
  destruct i as [|i]; simpl.
  - now rewrite Nat.add_0_r.
  - rewrite IH. now rewrite Nat.add_succ_r.
Qed.

Lemma cardsFrom_length index n steps : length (cardsFrom index n steps) = length steps.
Proof.
  revert index. induction steps as [|step rest IH]; intros index; simpl;
    [reflexivity | now rewrite IH].
Qed.

Lemma underscoresToSpaces_length (s : list N) :
  length (underscoresToSpaces s) = length s.
Proof. unfold underscoresToSpaces. apply length_map. Qed.

Lemma underscoresToSpaces_free (s : list N) : ~ In 95%N (underscoresToSpaces s).
Proof.
  induction s as [|c s IH]; simpl; [tauto|].
  intros [E|E]; [|tauto].
  destruct (N.eqb_spec c 95); [discriminate | congruence].
Qed.

Lemma underscoresToSpaces_lookup (s : list N) i :
  underscoresToSpaces s !! i
  = (fun c => if N.eqb c 95 then 32%N else c) <$> s !! i.
Proof. unfold underscoresToSpaces. apply list_lookup_fmap. Qed.

End Cards.

(** X12. For a sequence of steps that is not empty the timeline tab shows
    one card per step, in the order of the steps, each the card of its own
    step; exactly the card of the last step is marked as last (it has no
    connecting line under it). *)
Theorem timeline_cards (steps : list TimelineStep) :
  steps <> [] ->
  exists cards,
    TimelineTab (Some steps) = Trace cards
    /\ length cards = length steps
    /\ forall (i : nat) (step : TimelineStep),
         steps !! i = Some step ->
         exists card,
           cards !! i = Some card
           /\ card = StepCard step (cardIsLast card)
           /\ (cardIsLast card = true <-> S i = length steps).
Proof.
  intros Hne. exists (cardsFrom 0 (length steps) steps).
  split; [destruct steps; [congruence | reflexivity]|].
  split; [apply cardsFrom_length|].
  intros i step Hi. eexists. split.
  - rewrite cardsFrom_lookup, Hi. reflexivity.
  - split; [reflexivity|]. simpl.
    rewrite Nat.eqb_eq. apply lookup_lt_Some in Hi. lia.
Qed.

(** ** The score view and the other tabs *)

Lemma badgeClass_inj (l l' : RiskLevel) : badgeClass l = badgeClass l' -> l = l'.
Proof. destruct l, l'; vm_compute; congruence. Qed.

Lemma riskColor_banding (score : Z) (l : RiskLevel) :
  riskColor score = bandColor l <-> banding score l.
Proof.
  split.
  - unfold riskColor.
    destruct (Z.ltb_spec score 30); [|destruct (Z.ltb_spec score 70)]; intros E.
    + replace l with Low by (now apply band_colors_differ). now constructor.
    + replace l with Medium by (now apply band_colors_differ). now constructor.
    + replace l with High by (now apply band_colors_differ). constructor. lia.
  - intros B. unfold riskColor. inversion B; subst.
    + destruct (Z.ltb_spec score 30); [reflexivity | lia].
    + destruct (Z.ltb_spec score 30); [lia|].
      destruct (Z.ltb_spec score 70); [reflexivity | lia].
    + destruct (Z.ltb_spec score 30); [lia|].
      destruct (Z.ltb_spec score 70); [lia | reflexivity].
Qed.

(** X14. The score view takes the level from the response and the colour of
    the chart from the score, each on its own: the badge and the chart show
    the same band exactly when the level of the response is the band that
    the thresholds 30 and 70 give its score. *)
Theorem badge_and_chart_agree (summary : MRISummary) (risk : MRIRisk) :
  let view := MRIScoreTab summary risk in
  shownLevel view = levelName (level risk)
  /\ ((exists band, shownBadge view = badgeClass band /\ pieFill view = bandColor band)
      <-> banding (score risk) (level risk)).
Proof.
  cbv zeta. split; [reflexivity|]. simpl. split.
  - intros (band & Hb & Hc). apply badgeClass_inj in Hb. subst band.
    now apply riskColor_banding.
  - intros B. exists (level risk). split; [reflexivity | now apply riskColor_banding].
Qed.

Lemma toObject_lookups (r : InternRunResponse) :
  readString (toObject r) "final_answer_md" = Some (final_answer_md r)
  /\ readSummary (toObject r) "summary" = Some (summary r)
  /\ readRisk (toObject r) "risk" = Some (risk r)
  /\ readString (toObject r) "report_markdown" = Some (report_markdown r)
  /\ readString (toObject r) "critic_markdown" = Some (critic_markdown r).
Proof.
  unfold readString, readSummary, readRisk, toObject.
  repeat split;
    repeat (rewrite lookup_insert_ne by discriminate); now rewrite lookup_insert_eq.
Qed.

(** X15. For every response of the declared shape, the response tab, the
    score tab, the report tab and the feedback tab show the field of the
    response they are named after; no content exists for a tab number past
    the six tabs, and none while there is no response. *)
Theorem declared_fields_rendered (r : InternRunResponse) (n : nat) :
  tabContent (Some (toObject r)) 0 = Some (ResponseTab (MarkdownViewer (final_answer_md r)))
  /\ tabContent (Some (toObject r)) 1 = Some (ScoreTab (MRIScoreTab (summary r) (risk r)))
  /\ tabContent (Some (toObject r)) 4 = Some (ReportTab (MarkdownViewer (report_markdown r)))
  /\ tabContent (Some (toObject r)) 5 = Some (FeedbackTab (MarkdownViewer (critic_markdown r)))
  /\ tabContent (Some (toObject r)) (6 + n) = None
  /\ tabContent None n = None.
Proof.
  destruct (toObject_lookups r) as (H0 & H1 & H2 & H4 & H5).
  unfold tabContent. rewrite H0, H1, H2, H4, H5. repeat split; reflexivity.
Qed.

(** ** The page: running a simulation *)

Section Page.

Implicit Types (m : App.Machine) (st : App.AppState) (ev : App.Event).

Lemma handleRunBegin_blank st :
  App.handleRunBegin st = None <-> blank (App.task st) = true.
Proof.
  unfold App.handleRunBegin. rewrite truthy_trim.
  destruct (blank (App.task st)); simpl; split; congruence.
Qed.

Lemma step_consistent m ev m' :
  App.consistent m -> App.step m ev = Some m' -> App.consistent m'.
Proof.
  destruct m as [st n]. destruct st as [tk md stat res err].
  unfold App.consistent. simpl. intros (Hle & Hrun & Hstat).
  destruct ev as [t | md' | | outcome]; simpl.
  - intros [= <-]. simpl. auto.
  - intros [= <-]. simpl. auto.
  - destruct stat; simpl; try discriminate;
      (destruct (truthy tk); simpl; [|discriminate]);
      unfold App.handleRunBegin; simpl;
      (destruct (truthy (trim tk)); intros [= <-]; simpl;
       [ assert (n = 0%nat) by (destruct Hrun as [H1 _]; destruct n as [|[|?]];
                                 [reflexivity | specialize (H1 eq_refl); discriminate | lia]);
         subst n; repeat split; auto
       | repeat split; auto; tauto ]).
  - destruct n as [|n]; [discriminate|]. intros [= <-].
    assert (n = 0%nat) by lia. subst n.
    assert (stat = App.Running) by (now apply Hrun). subst stat.
    destruct outcome as [data | e]; simpl.
    + repeat split; eauto; try discriminate; try lia.
    + repeat split; eauto; try discriminate; try lia.
Qed.

Lemma run_consistent events m m' :
  App.consistent m -> App.run m events = Some m' -> App.consistent m'.
Proof.
  revert m. induction events as [|ev rest IH]; intros m Hm; simpl.
  - now intros [= <-].
  - destruct (App.step m ev) as [m1|] eqn:E; [|discriminate].
    apply IH. now apply (step_consistent m ev).
Qed.

Lemma initial_consistent : App.consistent App.initialMachine.
Proof. unfold App.consistent. simpl. repeat split; auto; discriminate. Qed.

Lemma step_results m ev m' :
  App.step m ev = Some m' ->
  App.results (App.app m') = App.results (App.app m)
  \/ exists data, ev = App.Settle (App.Resolved data)
                  /\ App.results (App.app m') = Some data.
Proof.
  unfold App.step. destruct ev as [t | md | | outcome].
  - intros [= <-]. now left.
  - intros [= <-]. now left.
  - destruct (App.buttonDisabled (App.control (App.render (App.app m))));
      [discriminate|].
    unfold App.handleRunBegin.
    destruct (truthy (trim (App.task (App.app m)))); intros [= <-]; now left.
  - destruct (App.pending m); [discriminate|]. intros [= <-].
    destruct outcome as [data | e]; simpl; [right; eauto | now left].
Qed.

End Page.

(** X16. Whatever the user does and however the calls end, from the first
    rendering on: at most one call of the backend is awaited, and one is
    awaited exactly while the status is running; an idle page has neither
    results nor error; a running one has no error; a page that is done has
    results and no error; a page in error has an error message. *)
Theorem page_stays_consistent (events : list App.Event) (m : App.Machine) :
  App.run App.initialMachine events = Some m -> App.consistent m.
Proof. apply run_consistent, initial_consistent. Qed.

(** X17. The button and the handler guard the task differently. With an
    empty task the button is disabled, and the handler would return at once
    as well; with a task that is not empty but blank, on a page that is not
    running, the button is enabled and a click changes nothing: no call is
    made and the status stays as it is. *)
Theorem blank_task_click_does_nothing (m : App.Machine) :
  App.status (App.app m) <> App.Running ->
  App.task (App.app m) <> [] ->
  blank (App.task (App.app m)) = true ->
  App.buttonDisabled (App.control (App.render (App.app m))) = false
  /\ App.step m App.Click = Some m
  /\ forall st, App.task st = [] ->
       App.buttonDisabled (App.control (App.render st)) = true
       /\ App.handleRunBegin st = None.
Proof.
  intros Hrun Htask Hblank.
  assert (Hbtn : App.buttonDisabled (App.control (App.render (App.app m))) = false).
  { simpl. destruct (App.status (App.app m)); try congruence;
      destruct (App.task (App.app m)); simpl; congruence. }
  split; [exact Hbtn|]. split.
  - unfold App.step. rewrite Hbtn.
    now rewrite (proj2 (handleRunBegin_blank (App.app m)) Hblank).
  - intros st Hst. split.
    + simpl. rewrite Hst. apply orb_true_r.
    + apply handleRunBegin_blank. now rewrite Hst.
Qed.

(** X18. Results are never cleared: an event leaves the results as they
    were unless it is a call that resolves, which puts its data in their
    place; so once results are shown, results stay shown through every later
    event, a failed run included. *)
Theorem results_are_never_cleared
        (events : list App.Event) (m m' : App.Machine) :
  App.run m events = Some m' ->
  is_Some (App.shown (App.render (App.app m))) ->
  is_Some (App.shown (App.render (App.app m'))).
Proof.
  revert m. induction events as [|ev rest IH]; intros m; simpl.
  - now intros [= <-].
  - destruct (App.step m ev) as [m1|] eqn:E; [|discriminate].
    intros Hrun Hshown. apply (IH m1 Hrun).
    destruct (step_results m ev m1 E) as [Hsame | (data & _ & Hdata)].
    + simpl in *. now rewrite Hsame.
    + simpl. rewrite Hdata. eauto.
Qed.

(** X19. On every page that can be reached, an error banner is on the page
    only in status error, next to the text that the simulation failed; and
    while a call is awaited the button is disabled and reads that it is
    processing. *)
Theorem banner_only_in_error
        (events : list App.Event) (m : App.Machine) (message : list N) :
  App.run App.initialMachine events = Some m ->
  (App.banner (App.render (App.app m)) = Some message ->
   App.status (App.app m) = App.Error
   /\ App.statusText (App.control (App.render (App.app m)))
      = Some (lit "Simulation failed"))
  /\ ((App.pending m > 0)%nat ->
      App.buttonDisabled (App.control (App.render (App.app m))) = true
      /\ App.buttonLabel (App.control (App.render (App.app m))) = lit "Processing...").
Proof.
  intros Hrun. pose proof (run_consistent events _ m initial_consistent Hrun) as Hc.
  destruct Hc as (Hle & Hpend & Hstat). split.
  - simpl. destruct (App.error (App.app m)) as [msg|] eqn:Herr; [|discriminate].
    intros _. destruct (App.status (App.app m)); simpl in *;
      try (destruct Hstat; congruence); try congruence. now split.
  - intros Hpos. assert (Hone : App.pending m = 1%nat) by lia.
    apply Hpend in Hone. simpl. rewrite Hone. now split.
Qed.

(** ** Instances of the further properties *)

Lemma numbered_lines_rendered_witness :
  renderLine [] 0 (lit "12" ++ [46%N] ++ lit " Retry the call. Twice")
  = Numbered (lit "12") (renderParts (lit "Retry the call. Twice")).
Proof.
  apply (numbered_lines_rendered [] 0 (lit "12") (lit " Retry the call. Twice")).
  - discriminate.
  - repeat constructor.
Defined.

Lemma text_without_stars_is_plain_witness :
  renderParts (lit "one * star") = [Plain (lit "one * star")].
Proof. apply (text_without_stars_is_plain (lit "one * star")). reflexivity. Defined.

Lemma bold_span_rendered_witness :
  renderParts (lit "risk " ++ [star; star] ++ lit "high" ++ [star; star] ++ lit " now")
  = [Plain (lit "risk "); Strong (lit "high"); Plain (lit " now")].
Proof.
  apply (bold_span_rendered (lit "risk ") (lit "high") (lit " now")).
  - intros H. repeat (destruct H as [H|H]; [discriminate|]). destruct H.
  - intros H. repeat (destruct H as [H|H]; [discriminate|]). destruct H.
  - reflexivity.
Defined.

Lemma step_headings_numbered_witness :
  List.filter isStepHeading (split 10 (generateTimelineMarkdown (Some unnumberedSteps)))
  = [ lit "### Step 1: `thought`" ++ labelSeparator ++ lit "plan";
      lit "### Step 2: `final_answer`" ].
Proof.
  refine (proj1 (step_headings_numbered unnumberedSteps _ _)).
  - discriminate.
  - repeat constructor.
Defined.

Lemma log_view_nodes_witness :
  length (List.filter isHr (MarkdownViewer (generateTimelineMarkdown (Some sampleSteps))))
  = 3%nat.
Proof.
  refine (proj2 (log_view_nodes sampleSteps _ _)).
  - discriminate.
  - repeat constructor.
Defined.

Lemma timeline_cards_witness :
  exists cards,
    TimelineTab (Some sampleSteps) = Trace cards /\ length cards = 2%nat.
Proof.
  destruct (timeline_cards sampleSteps) as (cards & Htab & Hlen & _).
  - discriminate.
  - exists cards. split; [exact Htab | exact Hlen].
Defined.

Lemma page_stays_consistent_witness :
  exists m, App.run App.initialMachine failingSession = Some m
            /\ App.status (App.app m) = App.Error
            /\ App.consistent m.
Proof.
  eexists. split; [reflexivity|]. split; [reflexivity|].
  apply (page_stays_consistent failingSession). reflexivity.
Defined.

Lemma blank_task_click_does_nothing_witness :
  App.step blankTaskPage App.Click = Some blankTaskPage.
Proof.
  refine (proj1 (proj2 (blank_task_click_does_nothing blankTaskPage _ _ _))).
  - discriminate.
  - discriminate.
  - reflexivity.
Defined.

Lemma results_are_never_cleared_witness :
  App.run shownPage [ App.Click; App.Settle (App.Rejected App.ThrownNullish) ]
  = Some failedPage
  /\ is_Some (App.shown (App.render (App.app failedPage))).
Proof.
  split; [reflexivity|].
  apply (results_are_never_cleared
           [ App.Click; App.Settle (App.Rejected App.ThrownNullish) ]
           shownPage failedPage).
  - reflexivity.
  - simpl. eauto.
Defined.

Lemma banner_only_in_error_witness :
  exists m, App.run App.initialMachine failingSession = Some m
            /\ App.banner (App.render (App.app m)) = Some (lit "Failed to fetch")
            /\ App.status (App.app m) = App.Error.
Proof.
  eexists. split; [reflexivity|]. split; [reflexivity|].
  refine (proj1 (proj1 (banner_only_in_error failingSession _ (lit "Failed to fetch") eq_refl)
                   eq_refl)).
Defined.

(** ** More of the timeline document *)

Section DocumentEnds.

Implicit Types (step : TimelineStep) (steps : list TimelineStep).

Lemma stepLines_last idx step : exists init, stepLines idx step = init ++ [rule].
Proof.
  unfold stepLines. cbv zeta.
  match goal with
  | |- context [ ?A ++ ?B ++ ?C ++ ?D ++ [rule] ] => exists (A ++ B ++ C ++ D)
  end.
  now rewrite <- !app_assoc.
Qed.

Lemma sections_last idx steps :
  steps <> [] -> exists init, concat (sectionsFrom idx steps) = init ++ [rule].
Proof.
  revert idx. induction steps as [|step rest IH]; intros idx Hne; [congruence|].
  cbn [sectionsFrom concat]. destruct rest as [|step' rest'].
  - destruct (stepLines_last idx step) as [init ->]. exists init.
    cbn [sectionsFrom concat]. now rewrite app_nil_r.
  - destruct (IH (S idx)) as [init ->]; [discriminate|].
    exists (stepLines idx step ++ init). now rewrite <- app_assoc.
Qed.

(** Where the lines of the text of a step stand among the lines that the
    generator writes. *)
Lemma text_block_position steps idx step (t : list N) :
  steps !! idx = Some step -> text step = Some t -> t <> [] ->
  exists front back,
    timelinePreamble ++ concat (sectionsFrom 0 steps)
    = front ++ List.map quoteLine (split 10 t) ++ back.
Proof.
  intros Hidx Htext Ht.
  apply list_elem_of_split_length in Hidx.
  destruct Hidx as (pre & post & -> & ->).
  rewrite sectionsFrom_app, concat_app.
  change (sectionsFrom (0 + length pre) (step :: post))
    with (stepLines (0 + length pre) step :: sectionsFrom (S (0 + length pre)) post).
  rewrite concat_cons.
  unfold stepLines at 1. cbv zeta. rewrite Htext.
  change (orEmpty (Some t)) with t.
  replace (truthy t) with true by (now destruct t).
  match goal with
  | |- context [ ?hd ++ ?sh ++ (?cap ++ ?block ++ ?gap) ++ ?tg ++ [rule] ] =>
      exists (timelinePreamble ++ concat (sectionsFrom 0 pre) ++ hd ++ sh ++ cap),
             (gap ++ tg ++ [rule] ++ concat (sectionsFrom (S (0 + length pre)) post))
  end.
  now rewrite <- !app_assoc.
Qed.

End DocumentEnds.

(** X20. The timeline markdown of a sequence that is not empty begins with
    the title line and ends with a rule line, with no line feed after it. *)
Theorem timeline_starts_and_ends (steps : list TimelineStep) :
  steps <> [] ->
  exists middle : list N,
    generateTimelineMarkdown (Some steps)
    = timelineTitle ++ [10%N] ++ middle ++ [10%N] ++ rule.
Proof.
  intros Hne. rewrite generateTimelineMarkdown_sections by exact Hne.
  destruct (sections_last 0 steps Hne) as [init ->].
  unfold timelinePreamble.
  set (mid := [[]; timelineIntro; rule] ++ init).
  change ([timelineTitle; []; timelineIntro; rule] ++ init ++ [rule])
    with ([timelineTitle] ++ (mid ++ [rule])).
  rewrite join_app; [|discriminate | unfold mid; discriminate].
  rewrite (join_app _ mid [rule]); [|unfold mid; discriminate | discriminate].
  exists (join [10%N] mid). reflexivity.
Qed.

(** X21. The log view shows the text of a step line by line: for steps with
    single-line fields, the lines of a text that is not empty stand at
    consecutive places of the view, in order, each line that is not blank as
    a quote of exactly that line and each blank line as a paragraph with the
    bare quote marker. *)
Theorem text_lines_in_log_view
        (steps : list TimelineStep) (idx : nat) (step : TimelineStep) (t : list N) :
  Forall (fun s => singleLineFields s = true) steps ->
  steps !! idx = Some step ->
  text step = Some t ->
  t <> [] ->
  exists first : nat,
    forall (j : nat) (line : list N),
      split 10 t !! j = Some line ->
      MarkdownViewer (generateTimelineMarkdown (Some steps)) !! (first + j)%nat
      = Some (if blank line then Paragraph [Plain (lit ">")] else Quote line).
Proof.
  intros Hsl Hidx Htext Ht.
  assert (Hne : steps <> []) by (intros ->; discriminate).
  destruct (text_block_position steps idx step t Hidx Htext Ht) as (front & back & E).
  exists (length front). intros j line Hj.
  unfold MarkdownViewer. rewrite timeline_lines by assumption.
  rewrite renderFrom_lookup, E.
  rewrite lookup_app_r by lia.
  replace (length front + j - length front)%nat with j by lia.
  rewrite lookup_app_l
    by (rewrite length_map; now apply lookup_lt_Some in Hj).
  rewrite list_lookup_fmap, Hj. simpl. f_equal. apply renderLine_quoteLine.
Qed.

(** ** A run from click to settlement, and the client of the backend *)

(** X22. A run on a page that is not running and whose task is not blank:
    the click starts one call, and when it settles none is awaited.  If the
    call resolves, the status is done, the results are its data and no
    banner is on the page.  If it rejects, the status is error, the results
    are the ones from before, and the banner holds the message of what was
    thrown, or the fixed message when that carries none; a message that is
    the empty string leaves the page in error without a banner.  Task and
    mode are as before. *)
Theorem run_from_click_to_settlement (m : App.Machine) (outcome : App.Outcome) :
  App.status (App.app m) <> App.Running ->
  blank (App.task (App.app m)) = false ->
  App.pending m = 0%nat ->
  exists m',
    App.run m [App.Click; App.Settle outcome] = Some m'
    /\ App.pending m' = 0%nat
    /\ App.task (App.app m') = App.task (App.app m)
    /\ App.mode (App.app m') = App.mode (App.app m)
    /\ match outcome with
       | App.Resolved data =>
           App.status (App.app m') = App.Done
           /\ App.shown (App.render (App.app m')) = Some data
           /\ App.banner (App.render (App.app m')) = None
       | App.Rejected err =>
           App.status (App.app m') = App.Error
           /\ App.shown (App.render (App.app m')) = App.shown (App.render (App.app m))
           /\ App.banner (App.render (App.app m'))
              = match err with
                | App.ThrownValue (Some message) =>
                    if truthy message then Some message else None
                | _ => Some App.unexpectedError
                end
       end.
Proof.
  destruct m as [st n]. destruct st as [tk md stat res err0]. simpl.
  intros Hstat Hblank ->.
  assert (Htk : truthy tk = true).
  { destruct tk; [discriminate | reflexivity]. }
  assert (Htrim : truthy (trim tk) = true) by (now rewrite truthy_trim, Hblank).
  assert (Hrun : App.isRunning stat = false)
    by (destruct stat; try reflexivity; now contradiction Hstat).
  unfold App.handleRunBegin. simpl. rewrite Hrun, Htk, Htrim. simpl.
  eexists. split; [reflexivity|]. simpl.
  destruct outcome as [data | e]; simpl.
  - repeat split.
  - repeat split. destruct e as [|[message|]]; reflexivity.
Qed.

(** X23. The client of the backend resolves exactly when the fetch gave a
    response that is ok and whose body parsed, and then with the parsed
    body: it never resolves on a response that is not ok, nor when the fetch
    or the read of the body was rejected.  On a response that is not ok whose
    body can be read it rejects with an error whose message names the status
    and holds the body, a message that is never empty. *)
Theorem run_intern_resolves_iff
        (fetched : AgentMriApi.Fetched) (data : gmap string Field) :
  (AgentMriApi.runIntern fetched = App.Resolved data
   <-> exists resp,
         fetched = AgentMriApi.FetchResponse resp
         /\ AgentMriApi.ok resp = true
         /\ AgentMriApi.bodyJson resp = AgentMriApi.ReadOk data)
  /\ forall resp errorText,
       AgentMriApi.ok resp = false ->
       AgentMriApi.bodyText resp = AgentMriApi.ReadOk errorText ->
       AgentMriApi.runIntern (AgentMriApi.FetchResponse resp)
       = App.Rejected
           (App.ThrownValue
              (Some (lit "Agent MRI API error "
                     ++ numberToString (AgentMriApi.httpStatus resp)
                     ++ lit ": " ++ errorText)))
       /\ truthy (lit "Agent MRI API error "
                  ++ numberToString (AgentMriApi.httpStatus resp)
                  ++ lit ": " ++ errorText) = true.
Proof.
  split.
  - split.
    + destruct fetched as [err | resp]; [discriminate|].
      unfold AgentMriApi.runIntern.
      destruct (AgentMriApi.ok resp) eqn:Hok; simpl negb; cbv iota.
      * destruct (AgentMriApi.bodyJson resp) as [d | err] eqn:Hjson; [|discriminate].
        intros [= ->]. exists resp. auto.
      * destruct (AgentMriApi.bodyText resp); discriminate.
    + intros (resp & -> & Hok & Hjson).
      unfold AgentMriApi.runIntern. now rewrite Hok, Hjson.
  - intros resp errorText Hok Htext.
    unfold AgentMriApi.runIntern. rewrite Hok, Htext. split; reflexivity.
Qed.

Lemma timeline_starts_and_ends_witness :
  exists middle : list N,
    generateTimelineMarkdown (Some sampleSteps)
    = timelineTitle ++ [10%N] ++ middle ++ [10%N] ++ rule.
Proof. apply (timeline_starts_and_ends sampleSteps). discriminate. Defined.

Lemma text_lines_in_log_view_witness :
  exists first : nat,
    MarkdownViewer (generateTimelineMarkdown (Some sampleSteps)) !! (first + 1)%nat
    = Some (Paragraph [Plain (lit ">")]).
Proof.
  destruct (text_lines_in_log_view sampleSteps 0 planStep
              (lit "first line" ++ [10%N; 32%N; 10%N] ++ lit "third line"))
    as [first Hfirst].
  - repeat constructor.
  - reflexivity.
  - reflexivity.
  - discriminate.
  - exists first. apply (Hfirst 1%nat (lit " ")). reflexivity.
Defined.

Lemma run_from_click_to_settlement_witness :
  exists m',
    App.run shownPage [App.Click; App.Settle (App.Rejected App.ThrownNullish)] = Some m'
    /\ App.status (App.app m') = App.Error.
Proof.
  destruct (run_from_click_to_settlement shownPage (App.Rejected App.ThrownNullish))
    as (m' & Hrun & _ & _ & _ & Hstat & _).
  - discriminate.
  - reflexivity.
  - reflexivity.
  - exists m'. split; [exact Hrun | exact Hstat].
Defined.

Lemma run_intern_resolves_iff_witness :
  AgentMriApi.runIntern (AgentMriApi.FetchResponse serverError)
  = App.Rejected
      (App.ThrownValue (Some (lit "Agent MRI API error 500: Internal Server Error"))).
Proof.
  exact (proj1 (proj2 (run_intern_resolves_iff (AgentMriApi.FetchResponse serverError) ∅)
                  serverError (lit "Internal Server Error") eq_refl eq_refl)).
Defined.
